(** * astrobackend: credential gate and appointment lifecycle

    A shallow embedding of the two source files of the repository:
    [server.js] (signup and login, token issue) and the appointment router
    together with the [auth] middleware it is mounted behind.

    Handlers are written as pure functions from the request, the process
    environment, the clock and the stored collections to an HTTP response
    and the collections afterwards.  JavaScript exceptions are a small
    completion monad with [try_catch]; the third-party libraries the code
    calls (jsonwebtoken, bcryptjs, the Date parser) enter through one
    record of host functions. *)

From Stdlib Require Import String Ascii List ZArith NArith Bool Lia DecimalString.
From Stdlib Require Import Permutation Sorted.
From Stdlib Require Import Recdef.
Import ListNotations.

Open Scope list_scope.
Open Scope string_scope.


(* ------------------------------------------------------------------ *)
(** ** JavaScript values the handlers touch *)

Module Js.

(** A property read off [req.body], [req.headers] or [process.env]:
    [None] is [undefined], [Some s] a string.  Request bodies are taken
    to hold text fields, as section 3 of the specification has them. *)
Definition value := option string.

(** [!v]: [undefined] and the empty string are falsy. *)
Definition falsy (v : value) : bool :=
  match v with
  | None => true
  | Some s => s =? ""
  end.

Definition truthy (v : value) : bool := negb (falsy v).

(** [a || b] on a possibly-undefined string with a string default. *)
Definition or_else (v : value) (d : string) : string :=
  match v with
  | Some s => if s =? "" then d else s
  | None => d
  end.

(** [s.startsWith(p)] *)
Fixpoint startsWith (s p : string) {struct p} : bool :=
  match p with
  | EmptyString => true
  | String a p' =>
      match s with
      | EmptyString => false
      | String b s' => Ascii.eqb a b && startsWith s' p'
      end
  end.

(** [s.split(sep)] for a one-character separator: never the empty
    array, [''.split(' ')] is [['']]. *)
Fixpoint split (sep : ascii) (s : string) : list string :=
  match s with
  | EmptyString => [EmptyString]
  | String c rest =>
      if Ascii.eqb c sep then EmptyString :: split sep rest
      else match split sep rest with
           | piece :: pieces => String c piece :: pieces
           | [] => [String c EmptyString]
           end
  end.

(** [xs[i]]: [undefined] past the end. *)
Definition index (xs : list string) (i : nat) : value := nth_error xs i.

(** White space as [\s] and [String.prototype.trim] see it, on the
    code units below 256 that a [string] here holds. *)
Definition is_space (c : ascii) : bool :=
  let n := nat_of_ascii c in
  ((9 <=? n) && (n <=? 13) || (n =? 32) || (n =? 160))%nat.

Fixpoint all_space (s : string) : bool :=
  match s with
  | EmptyString => true
  | String c rest => is_space c && all_space rest
  end.

(** [s.trim() !== ''] *)
Definition trim_nonempty (s : string) : bool := negb (all_space s).

End Js.

(* ------------------------------------------------------------------ *)
(** ** Regular expressions, matched by derivatives

    The two patterns of the appointment router are anchored at both ends
    ([^...$], no flags), so [test] is a whole-string match. *)

Module Regex.

Inductive re : Type :=
| Void : re
| Eps : re
| Class : (ascii -> bool) -> re
| Cat : re -> re -> re
| Alt : re -> re -> re
| Star : re -> re.

Fixpoint nullable (r : re) : bool :=
  match r with
  | Void => false
  | Eps => true
  | Class _ => false
  | Cat a b => nullable a && nullable b
  | Alt a b => nullable a || nullable b
  | Star _ => true
  end.

Fixpoint deriv (c : ascii) (r : re) : re :=
  match r with
  | Void => Void
  | Eps => Void
  | Class p => if p c then Eps else Void
  | Cat a b =>
      if nullable a then Alt (Cat (deriv c a) b) (deriv c b)
      else Cat (deriv c a) b
  | Alt a b => Alt (deriv c a) (deriv c b)
  | Star a => Cat (deriv c a) (Star a)
  end.

(** [/^r$/.test(s)] *)
Fixpoint test (r : re) (s : string) : bool :=
  match s with
  | EmptyString => nullable r
  | String c rest => test (deriv c r) rest
  end.

Definition Plus (r : re) : re := Cat r (Star r).

Definition Lit (c : ascii) : re := Class (Ascii.eqb c).

Fixpoint Times (n : nat) (r : re) : re :=
  match n with
  | O => Eps
  | S k => Cat r (Times k r)
  end.

(** [\d] *)
Definition digit (c : ascii) : bool :=
  let n := nat_of_ascii c in ((48 <=? n) && (n <=? 57))%nat.

(** [[^\s@]] *)
Definition not_space_at (c : ascii) : bool :=
  negb (Js.is_space c || Ascii.eqb c "@").

End Regex.

(** [const emailRegex = /^[^\s@]+@[^\s@]+\.[^\s@]+$/] *)
Definition emailRegex : Regex.re :=
  Regex.Cat (Regex.Plus (Regex.Class Regex.not_space_at))
    (Regex.Cat (Regex.Lit "@")
       (Regex.Cat (Regex.Plus (Regex.Class Regex.not_space_at))
          (Regex.Cat (Regex.Lit ".")
             (Regex.Plus (Regex.Class Regex.not_space_at))))).

(** [const phoneRegex = /^\d{10}$/] *)
Definition phoneRegex : Regex.re := Regex.Times 10 (Regex.Class Regex.digit).


(* ------------------------------------------------------------------ *)
(** ** Exceptions *)

Inductive js_error : Type :=
| JsonWebTokenError (message : string)
| TokenExpiredError (message : string)
| Error (message : string).

(** [error.message] *)
Definition message_of (e : js_error) : string :=
  match e with
  | JsonWebTokenError m => m
  | TokenExpiredError m => m
  | Error m => m
  end.

(** How an expression ends: with a value, or with a thrown error. *)
Inductive completion (A : Type) : Type :=
| Return (a : A)
| Throw (e : js_error).

Arguments Return {A} a.
Arguments Throw {A} e.

(** [try { body } catch (error) { handler }], without state. *)
Definition try_catch {A : Type} (body : completion A) (handler : js_error -> A) : A :=
  match body with
  | Return a => a
  | Throw e => handler e
  end.

(* ------------------------------------------------------------------ *)
(** ** Documents

    Modelled from the spec: [models/User.js] and [models/Appointment.js]
    are not among the sources.  Section 3 of the specification gives the
    fields; identifiers are driver-generated ObjectIds, here drawn from a
    counter kept with the collections, and neither schema adds a
    validator or a setter of its own.  An identifier that arrives in a
    path or in a token is taken as the ObjectId it casts to. *)

Definition ObjectId := N.

Module User.

Record t : Type := {
  _id : ObjectId;
  username : string;
  email : string;
  password : string;
  zodiacSign : string
}.

(** [User.findOne(filter)]: the first document, in insertion order, that
    the filter selects; [null] when there is none. *)
Definition findOne (filter : t -> bool) (docs : list t) : option t :=
  List.find filter docs.

(** The filter [{ $or: [{ email }, { username }] }]. *)
Definition by_email_or_username (e n : string) (u : t) : bool :=
  (email u =? e) || (username u =? n).

(** The filter [{ username }]. *)
Definition by_username (n : string) (u : t) : bool := username u =? n.

End User.

Module Appointment.

Record t : Type := {
  _id : ObjectId;
  name : Js.value;
  email : Js.value;
  phone : Js.value;
  date : Js.value;
  time : Js.value;
  astrologer : Js.value;
  consultationType : Js.value;
  status : Js.value;
  userId : option ObjectId;
  createdAt : Z
}.

(** The update document [{ status }]. *)
Definition set_status (s : string) (d : t) : t :=
  {| _id := _id d; name := name d; email := email d; phone := phone d;
     date := date d; time := time d; astrologer := astrologer d;
     consultationType := consultationType d; status := Some s;
     userId := userId d; createdAt := createdAt d |}.

(** The filter [{ _id: id, userId: owner }]. *)
Definition by_id_and_owner (id owner : ObjectId) (d : t) : bool :=
  (_id d =? id)%N &&
  match userId d with
  | Some u => (u =? owner)%N
  | None => false
  end.

(** [findOneAndUpdate(filter, update, { new: true })] on the collection:
    the first match is rewritten in place and returned as rewritten. *)
Fixpoint findOneAndUpdate (filter : t -> bool) (update : t -> t) (docs : list t)
  : option t * list t :=
  match docs with
  | [] => (None, [])
  | d :: rest =>
      if filter d then (Some (update d), update d :: rest)
      else let (found, rest') := findOneAndUpdate filter update rest in
           (found, d :: rest')
  end.

(** [findOneAndDelete(filter)]: the first match is removed and returned. *)
Fixpoint findOneAndDelete (filter : t -> bool) (docs : list t)
  : option t * list t :=
  match docs with
  | [] => (None, [])
  | d :: rest =>
      if filter d then (Some d, rest)
      else let (found, rest') := findOneAndDelete filter rest in
           (found, d :: rest')
  end.

End Appointment.

(** The database: both collections in insertion order and the ObjectId
    counter. *)
Record Db : Type := {
  users : list User.t;
  appointments : list Appointment.t;
  next_id : ObjectId
}.

Definition empty_db : Db := {| users := []; appointments := []; next_id := 0%N |}.

(** ** Handler monad: the database is threaded through, and what was
    written before an exception stays written. *)

Definition M (A : Type) : Type := Db -> completion A * Db.

Definition ret {A : Type} (a : A) : M A := fun db => (Return a, db).

Definition throw {A : Type} (e : js_error) : M A := fun db => (Throw e, db).

Definition bind {A B : Type} (m : M A) (k : A -> M B) : M B :=
  fun db =>
    match m db with
    | (Return a, db') => k a db'
    | (Throw e, db') => (Throw e, db')
    end.

Definition lift {A : Type} (c : completion A) : M A := fun db => (c, db).

(** A read of the database ([await Model.findOne(...)]). *)
Definition query {A : Type} (f : Db -> A) : M A := fun db => (Return (f db), db).

Definition try_catch_M {A : Type} (body : M A) (handler : js_error -> M A) : M A :=
  fun db =>
    match body db with
    | (Return a, db') => (Return a, db')
    | (Throw e, db') => handler e db'
    end.

Declare Scope handler_scope.
Delimit Scope handler_scope with handler.

Notation "x <- m ;; k" := (bind m (fun x => k))
  (at level 61, m at next level, right associativity) : handler_scope.

Notation "'try' body 'catch' e => handler" := (try_catch_M body (fun e => handler))
  (at level 62, body at level 61, e name, handler at level 61) : handler_scope.

(** [const doc = new Model(fields)]: the constructor draws the ObjectId. *)
Definition new_ObjectId : M ObjectId :=
  fun db => (Return (next_id db),
             {| users := users db; appointments := appointments db;
                next_id := N.succ (next_id db) |}).

(** [await user.save()] *)
Definition save_user (u : User.t) : M unit :=
  fun db => (Return tt,
             {| users := users db ++ [u]; appointments := appointments db;
                next_id := next_id db |}).

(** [await appointment.save()] *)
Definition save_appointment (a : Appointment.t) : M unit :=
  fun db => (Return tt,
             {| users := users db; appointments := appointments db ++ [a];
                next_id := next_id db |}).

(** A read-modify-write of the appointment collection as one step. *)
Definition on_appointments {A : Type}
  (f : list Appointment.t -> A * list Appointment.t) : M A :=
  fun db =>
    let (a, docs) := f (appointments db) in
    (Return a, {| users := users db; appointments := docs; next_id := next_id db |}).

(* ------------------------------------------------------------------ *)
(** ** HTTP responses: [res.status(code).json(body)] *)

Module Res.

Record user_view : Type := {
  id : ObjectId;
  username : string;
  email : string;
  zodiacSign : string
}.

Inductive json : Type :=
| Message (message : string)
| MessageError (message error : string)
| MessageTokenUser (message token : string) (user : user_view)
| MessageAppointment (message : string) (appointment : Appointment.t).

Record t : Type := { status : Z; body : json }.

Definition send (code : Z) (b : json) : t := {| status := code; body := b |}.

(** The token a response carries, if any. *)
Definition token_of (r : t) : option string :=
  match body r with
  | MessageTokenUser _ tok _ => Some tok
  | _ => None
  end.

End Res.

(* ------------------------------------------------------------------ *)
(** ** The host: third-party functions the handlers call

    The base64url/JSON coding of a token's header and payload segments,
    the three HMACs, bcrypt, the Date parser and the zone of the server's
    local time are not code of the repository.  They are fields of one
    record, and every statement below holds for each value of it.

    The zone is one offset from UTC: the one in force on the day of the
    request.  On a day on which the zone changes its offset
    [Date.prototype.setHours] follows the zone's rules, and the start of
    the local day is then not the one computed from a single offset;
    such days are outside the model. *)

Module Payload.

(** What [jwt.sign] puts in the payload segment: the two fields the
    handlers pass and the two times (in seconds) the library adds. *)
Record t : Type := {
  userId : ObjectId;
  username : string;
  iat : Z;
  exp : Z
}.

End Payload.

(** The algorithms [jwt.verify] allows by default when the key is a
    secret and not a public key: HMAC with SHA-256, SHA-384, SHA-512. *)
Inductive hs_alg : Type := HS256 | HS384 | HS512.

Module Decoded.

(** What is read off a payload segment: the two fields the middleware
    takes, and the registered claims [jwt.verify] looks at.  A token
    need not carry [iat], [nbf] or [exp]. *)
Record t : Type := {
  userId : ObjectId;
  username : string;
  iat : option Z;
  nbf : option Z;
  exp : option Z
}.

(** The payload [jwt.sign] wrote, as it reads back. *)
Definition of_payload (p : Payload.t) : t :=
  {| userId := Payload.userId p; username := Payload.username p;
     iat := Some (Payload.iat p); nbf := None; exp := Some (Payload.exp p) |}.

End Decoded.

(** [b64url_header_alg] reads the [alg] of a header segment: [None]
    when the segment is not the coding of a JSON object, [Some None]
    when its algorithm is none of the three. *)
Record Host : Type := {
  b64url_json : Payload.t -> string;
  b64url_json_inv : string -> option Decoded.t;
  b64url_header_alg : string -> option (option hs_alg);
  hs256 : string -> string -> string;
  hs384 : string -> string -> string;
  hs512 : string -> string -> string;
  bcrypt_hash : string -> string -> string;
  bcrypt_compare : string -> string -> bool;
  Date_parse : string -> option Z;
  timezone_offset : Z
}.

(** [process.env] *)
Record process_env : Type := { env_JWT_SECRET : Js.value }.

(** String coercion of a body field that passed the presence gate. *)
Definition str (v : Js.value) : string :=
  match v with
  | Some s => s
  | None => "undefined"
  end.

(* ------------------------------------------------------------------ *)
(** ** jsonwebtoken (version 9), compact tokens under a shared secret

    [sign] and [verify] as the library documents them, in the order its
    checks run.  A token is [header.payload.signature]; the signature is
    the MAC of [header.payload] under the secret, by the algorithm the
    header names.  [sign] writes HS256 headers; [verify], called without
    options and with a secret that is not a key in PEM form, takes any
    of HS256, HS384 and HS512, and checks [nbf] and [exp] only where the
    payload has them. *)

Module jwt.

Section WithHost.

Variable H : Host.

(** base64url of [{"alg":"HS256","typ":"JWT"}] *)
Definition header_HS256 : string := "eyJhbGciOiJIUzI1NiIsInR5cCI6IkpXVCJ9".

(** ['24h'] in seconds. *)
Definition expiresIn_24h : Z := 24 * 60 * 60.

Definition signing_input (p : Payload.t) : string :=
  header_HS256 ++ "." ++ b64url_json H p.

(** [jwt.sign({ userId, username }, secret, { expiresIn })] at clock
    [now] (milliseconds). *)
Definition sign (userId : ObjectId) (username : string)
  (secretOrPrivateKey : string) (expiresIn : Z) (now : Z) : completion string :=
  if secretOrPrivateKey =? "" then
    Throw (Error "secretOrPrivateKey must have a value")
  else
    let iat := (now / 1000)%Z in
    let p := {| Payload.userId := userId; Payload.username := username;
                Payload.iat := iat; Payload.exp := (iat + expiresIn)%Z |} in
    Return (signing_input p ++ "." ++ hs256 H secretOrPrivateKey (signing_input p)).

(** The MAC of each algorithm. *)
Definition hmac (alg : hs_alg) : string -> string -> string :=
  match alg with
  | HS256 => hs256 H
  | HS384 => hs384 H
  | HS512 => hs512 H
  end.

(** The algorithm a header segment names.  The segment [sign] writes is
    the one above; every other text is the host's to decode. *)
Definition header_alg (header : string) : option (option hs_alg) :=
  if header =? header_HS256 then Some (Some HS256) else b64url_header_alg H header.

(** [payload.nbf > clockTimestamp], for a payload that has [nbf]. *)
Definition not_yet_valid (decoded : Decoded.t) (clockTimestamp : Z) : bool :=
  match Decoded.nbf decoded with
  | Some nbf => (clockTimestamp <? nbf)%Z
  | None => false
  end.

(** [clockTimestamp >= payload.exp], for a payload that has [exp]. *)
Definition expired (decoded : Decoded.t) (clockTimestamp : Z) : bool :=
  match Decoded.exp decoded with
  | Some exp => (exp <=? clockTimestamp)%Z
  | None => false
  end.

(** [jwt.verify(token, secretOrPublicKey)] at clock [now].  The error
    for a token not yet valid is the library's [NotBeforeError], a
    [JsonWebTokenError].  A payload segment that does not read as an
    object with the two fields of the middleware is refused here; the
    statements below about tokens that pass speak of the payload only
    as far as it reads. *)
Definition verify (jwtString : Js.value) (secretOrPublicKey : Js.value) (now : Z)
  : completion Decoded.t :=
  if Js.falsy jwtString then Throw (JsonWebTokenError "jwt must be provided")
  else
    match Js.split "." (str jwtString) with
    | [header; payload; signature] =>
        match header_alg header, b64url_json_inv H payload with
        | Some alg, Some decoded =>
            let clockTimestamp := (now / 1000)%Z in
            let hasSignature := Js.trim_nonempty signature in
            if negb hasSignature && Js.truthy secretOrPublicKey then
              Throw (JsonWebTokenError "jwt signature is required")
            else if hasSignature && Js.falsy secretOrPublicKey then
              Throw (JsonWebTokenError "secret or public key must be provided")
            else if negb hasSignature then
              Throw (JsonWebTokenError "please specify none in algorithms to verify unsigned tokens")
            else
              match alg with
              | None => Throw (JsonWebTokenError "invalid algorithm")
              | Some alg =>
                  if negb (signature
                           =? hmac alg (str secretOrPublicKey) (header ++ "." ++ payload)) then
                    Throw (JsonWebTokenError "invalid signature")
                  else if not_yet_valid decoded clockTimestamp then
                    Throw (JsonWebTokenError "jwt not active")
                  else if expired decoded clockTimestamp then
                    Throw (TokenExpiredError "jwt expired")
                  else Return decoded
              end
        | _, _ => Throw (JsonWebTokenError "invalid token")
        end
    | _ => Throw (JsonWebTokenError "jwt malformed")
    end.

End WithHost.

End jwt.

(* ------------------------------------------------------------------ *)
(** ** middleware/auth.js *)

(** [req.user] *)
Record Identity : Type := { userId : ObjectId; username : string }.

(** The middleware either calls [next()] with [req.user] set, or sends
    the response itself.  The route handlers behind it are [async] and
    catch their own errors, so nothing comes back through [next()] into
    the middleware's [try]. *)
Inductive auth_outcome : Type :=
| Next (user : Identity)
| Sent (response : Res.t).

Section Auth.

Variable H : Host.
Variable env : process_env.

(** The middleware over any verification function, so that its two
    [catch] clauses can be read apart from what [jwt.verify] throws. *)
Definition auth_with
  (verify : Js.value -> Js.value -> Z -> completion Decoded.t)
  (authorization : Js.value) (now : Z) : auth_outcome :=
  try_catch
    (let authHeader := authorization in
     if Js.falsy authHeader || negb (Js.startsWith (str authHeader) "Bearer ") then
       Return (Sent (Res.send 401 (Res.Message "Authorization token required")))
     else
       let token := Js.index (Js.split " " (str authHeader)) 1 in
       Return
         (try_catch
            (match verify token (env_JWT_SECRET env) now with
             | Return decoded =>
                 Return (Next {| userId := Decoded.userId decoded;
                                 username := Decoded.username decoded |})
             | Throw e => Throw e
             end)
            (fun error => Sent (Res.send 401 (Res.Message "Invalid token")))))
    (fun error => Sent (Res.send 500 (Res.Message "Server error"))).

(** [const auth = async (req, res, next) => ...]: verification is
    [jwt.verify(token, process.env.JWT_SECRET)]. *)
Definition auth (authorization : Js.value) (now : Z) : auth_outcome :=
  auth_with (jwt.verify H) authorization now.

(** [router.METHOD(path, auth, handler)]: the handler runs only after
    [next()]. *)
Definition protected (handler : Identity -> M Res.t)
  (authorization : Js.value) (now : Z) : M Res.t :=
  match auth authorization now with
  | Next user => handler user
  | Sent response => ret response
  end.

End Auth.

(* ------------------------------------------------------------------ *)
(** ** server.js: signup and login *)

Module SignupBody.

Record t : Type := {
  username : Js.value;
  email : Js.value;
  password : Js.value;
  zodiacSign : Js.value
}.

End SignupBody.

Module LoginBody.

Record t : Type := { username : Js.value; password : Js.value }.

End LoginBody.

(** [const JWT_SECRET = process.env.JWT_SECRET || 'astrology_jwt_secret_key_2025'] *)
Definition JWT_SECRET (env : process_env) : string :=
  Js.or_else (env_JWT_SECRET env) "astrology_jwt_secret_key_2025".

(** The [user] object of the signup and login responses. *)
Definition view (u : User.t) : Res.user_view :=
  {| Res.id := User._id u; Res.username := User.username u;
     Res.email := User.email u; Res.zodiacSign := User.zodiacSign u |}.

Section Server.

Variable H : Host.
Variable env : process_env.

Local Open Scope handler_scope.

(** [app.post('/api/auth/signup', ...)]; [salt] is what
    [bcrypt.genSalt(10)] returned, [now] the clock. *)
Definition signup (body : SignupBody.t) (salt : string) (now : Z) : M Res.t :=
  try
    (let username := SignupBody.username body in
     let email := SignupBody.email body in
     let password := SignupBody.password body in
     let zodiacSign := SignupBody.zodiacSign body in
     if Js.falsy username || Js.falsy email || Js.falsy password || Js.falsy zodiacSign then
       ret (Res.send 400 (Res.Message "All fields are required"))
     else
       existingUser <- query (fun db =>
         User.findOne (User.by_email_or_username (str email) (str username))
           (users db)) ;;
       match existingUser with
       | Some _ => ret (Res.send 400 (Res.Message "User already exists"))
       | None =>
           let hashedPassword := bcrypt_hash H (str password) salt in
           id <- new_ObjectId ;;
           let user := {| User._id := id; User.username := str username;
                          User.email := str email; User.password := hashedPassword;
                          User.zodiacSign := str zodiacSign |} in
           _ <- save_user user ;;
           token <- lift (jwt.sign H (User._id user) (User.username user)
                            (JWT_SECRET env) jwt.expiresIn_24h now) ;;
           ret (Res.send 201
                  (Res.MessageTokenUser "User created successfully" token (view user)))
       end)
  catch error =>
    ret (Res.send 500 (Res.MessageError "Error creating user" (message_of error))).

(** [app.post('/api/auth/login', ...)] *)
Definition login (body : LoginBody.t) (now : Z) : M Res.t :=
  try
    (let username := LoginBody.username body in
     let password := LoginBody.password body in
     if Js.falsy username || Js.falsy password then
       ret (Res.send 400 (Res.Message "Username and password are required"))
     else
       found <- query (fun db =>
         User.findOne (User.by_username (str username)) (users db)) ;;
       match found with
       | None => ret (Res.send 401 (Res.Message "Invalid credentials"))
       | Some user =>
           let isValidPassword := bcrypt_compare H (str password) (User.password user) in
           if negb isValidPassword then
             ret (Res.send 401 (Res.Message "Invalid credentials"))
           else
             token <- lift (jwt.sign H (User._id user) (User.username user)
                              (JWT_SECRET env) jwt.expiresIn_24h now) ;;
             ret (Res.send 200
                    (Res.MessageTokenUser "Login successful" token (view user)))
       end)
  catch error =>
    ret (Res.send 500 (Res.MessageError "Error logging in" (message_of error))).

End Server.

(* ------------------------------------------------------------------ *)
(** ** routes/appointments.js *)

Module Body.

(** [req.body] of the booking request.  Besides the seven fields the
    handler reads, a client may send [status] and [userId]; the spread
    copies them before the handler's own values overwrite them. *)
Record t : Type := {
  name : Js.value;
  email : Js.value;
  phone : Js.value;
  date : Js.value;
  time : Js.value;
  astrologer : Js.value;
  consultationType : Js.value;
  status : Js.value;
  userId : option ObjectId
}.

(** [{ ...req.body, userId: owner, status: 'pending' }] *)
Definition spread_with (b : t) (owner : ObjectId) (st : string) : t :=
  {| name := name b; email := email b; phone := phone b; date := date b;
     time := time b; astrologer := astrologer b;
     consultationType := consultationType b;
     status := Some st; userId := Some owner |}.

End Body.

(** [new Appointment(fields)]: the fields as given, a fresh identifier,
    the creation time. *)
Definition new_Appointment (fields : Body.t) (id : ObjectId) (now : Z) : Appointment.t :=
  {| Appointment._id := id;
     Appointment.name := Body.name fields;
     Appointment.email := Body.email fields;
     Appointment.phone := Body.phone fields;
     Appointment.date := Body.date fields;
     Appointment.time := Body.time fields;
     Appointment.astrologer := Body.astrologer fields;
     Appointment.consultationType := Body.consultationType fields;
     Appointment.status := Body.status fields;
     Appointment.userId := Body.userId fields;
     Appointment.createdAt := now |}.

Definition DAY_MS : Z := 86400000.

(** [today.setHours(0, 0, 0, 0)]: the start of the local day of [now],
    local time being UTC plus the offset in force that day. *)
Definition setHours_0 (offset now : Z) : Z := (now - (now + offset) mod DAY_MS)%Z.

(** [a < b] on a parsed date: an Invalid Date compares false. *)
Definition date_lt (a : option Z) (b : Z) : bool :=
  match a with
  | Some t => (t <? b)%Z
  | None => false
  end.

Section Appointments.

Variable H : Host.

Local Open Scope handler_scope.

(** [router.post('/', auth, ...)], after [auth] *)
Definition create (user : Identity) (body : Body.t) (now : Z) : M Res.t :=
  try
    (if Js.falsy (Body.name body) || Js.falsy (Body.email body)
        || Js.falsy (Body.phone body) || Js.falsy (Body.date body)
        || Js.falsy (Body.time body) || Js.falsy (Body.astrologer body)
        || Js.falsy (Body.consultationType body) then
       ret (Res.send 400 (Res.Message "All fields are required"))
     else if negb (Regex.test emailRegex (str (Body.email body))) then
       ret (Res.send 400 (Res.Message "Invalid email format"))
     else if negb (Regex.test phoneRegex (str (Body.phone body))) then
       ret (Res.send 400 (Res.Message "Invalid phone number format"))
     else
       let appointmentDate := Date_parse H (str (Body.date body)) in
       let today := setHours_0 (timezone_offset H) now in
       if date_lt appointmentDate today then
         ret (Res.send 400 (Res.Message "Please select a future date"))
       else
         id <- new_ObjectId ;;
         let appointment :=
           new_Appointment (Body.spread_with body (userId user) "pending") id now in
         _ <- save_appointment appointment ;;
         ret (Res.send 201
                (Res.MessageAppointment "Appointment booked successfully Thank you!"
                   appointment)))
  catch error =>
    ret (Res.send 500 (Res.MessageError "Error booking appointment" (message_of error))).

(** [router.patch('/:id', auth, ...)], after [auth]; [status] is
    [req.body.status]. *)
Definition update_status (user : Identity) (id : ObjectId) (status : string) : M Res.t :=
  try
    (appointment <- on_appointments
        (Appointment.findOneAndUpdate
           (Appointment.by_id_and_owner id (userId user))
           (Appointment.set_status status)) ;;
     match appointment with
     | None => ret (Res.send 404 (Res.Message "Appointment not found"))
     | Some a =>
         ret (Res.send 200 (Res.MessageAppointment "Appointment updated successfully" a))
     end)
  catch error =>
    ret (Res.send 500 (Res.MessageError "Error updating appointment" (message_of error))).

(** [router.delete('/:id', auth, ...)], after [auth] *)
Definition cancel (user : Identity) (id : ObjectId) : M Res.t :=
  try
    (appointment <- on_appointments
        (Appointment.findOneAndDelete
           (Appointment.by_id_and_owner id (userId user))) ;;
     match appointment with
     | None => ret (Res.send 404 (Res.Message "Appointment not found"))
     | Some _ => ret (Res.send 200 (Res.Message "Appointment cancelled successfully"))
     end)
  catch error =>
    ret (Res.send 500 (Res.MessageError "Error cancelling appointment" (message_of error))).

End Appointments.

(* ------------------------------------------------------------------ *)
(** ** A host to run the handlers on

    Small executable stand-ins for the library functions, used where a
    statement is evaluated on a concrete request: decimal text for the
    payload segment, a rolling checksum for the MAC and for the password
    hash, the date-only ISO form ([YYYY-MM-DD], read as UTC midnight) for
    the Date parser, and a server clock five and a half hours east of
    UTC.  The payload text is [userId_iat_exp_username]; [never] in the
    place of [exp] stands for a payload without that claim. *)

Module Demo.

Definition dec (n : N) : string := NilZero.string_of_uint (N.to_uint n).

Definition undec (s : string) : option N :=
  option_map N.of_uint (NilZero.uint_of_string s).

Fixpoint checksum (acc : N) (s : string) : N :=
  match s with
  | EmptyString => acc
  | String c rest => checksum ((acc * 31 + N_of_ascii c) mod 4294967296)%N rest
  end.

Definition payload_text (p : Payload.t) : string :=
  dec (Payload.userId p) ++ "_" ++ dec (Z.to_N (Payload.iat p)) ++ "_"
  ++ dec (Z.to_N (Payload.exp p)) ++ "_" ++ Payload.username p.

Definition exp_of_text (s : string) : option (option Z) :=
  if s =? "never" then Some None
  else option_map (fun e => Some (Z.of_N e)) (undec s).

Definition payload_of_text (s : string) : option Decoded.t :=
  match Js.split "_" s with
  | u :: i :: e :: name :: more =>
      match undec u, undec i, exp_of_text e with
      | Some u', Some i', Some e' =>
          Some {| Decoded.userId := u';
                  Decoded.username := String.concat "_" (name :: more);
                  Decoded.iat := Some (Z.of_N i'); Decoded.nbf := None;
                  Decoded.exp := e' |}
      | _, _, _ => None
      end
  | _ => None
  end.

(** The headers [{"alg":"HS384","typ":"JWT"}], [{"alg":"HS512","typ":"JWT"}]
    and [{"alg":"RS256","typ":"JWT"}] in base64url. *)
Definition alg_of_text (s : string) : option (option hs_alg) :=
  if s =? "eyJhbGciOiJIUzM4NCIsInR5cCI6IkpXVCJ9" then Some (Some HS384)
  else if s =? "eyJhbGciOiJIUzUxMiIsInR5cCI6IkpXVCJ9" then Some (Some HS512)
  else if s =? "eyJhbGciOiJSUzI1NiIsInR5cCI6IkpXVCJ9" then Some None
  else None.

Definition mac (key input : string) : string :=
  dec (checksum 7%N (key ++ "|" ++ input)).

Definition mac384 (key input : string) : string :=
  dec (checksum 13%N (key ++ "|" ++ input)).

Definition mac512 (key input : string) : string :=
  dec (checksum 17%N (key ++ "|" ++ input)).

Definition hash (password salt : string) : string :=
  salt ++ "$" ++ dec (checksum 11%N (salt ++ password)).

Definition compare (password hashed : string) : bool :=
  match Js.split "$" hashed with
  | salt :: _ => hashed =? hash password salt
  | [] => false
  end.

(** Days from 1970-01-01 to a civil date of the proleptic Gregorian
    calendar. *)
Definition days_from_civil (y m d : Z) : Z :=
  let y' := (if m <=? 2 then y - 1 else y)%Z in
  let era := (y' / 400)%Z in
  let yoe := (y' - era * 400)%Z in
  let mp := (if m <=? 2 then m + 9 else m - 3)%Z in
  let doy := ((153 * mp + 2) / 5 + d - 1)%Z in
  let doe := (yoe * 365 + yoe / 4 - yoe / 100 + doy)%Z in
  (era * 146097 + doe - 719468)%Z.

Definition parse_date (s : string) : option Z :=
  match Js.split "-" s with
  | [ys; ms; ds] =>
      if ((String.length ys =? 4) && (String.length ms =? 2)
          && (String.length ds =? 2))%nat then
        match undec ys, undec ms, undec ds with
        | Some y, Some m, Some d =>
            if ((1 <=? m) && (m <=? 12) && (1 <=? d) && (d <=? 31))%N then
              Some (days_from_civil (Z.of_N y) (Z.of_N m) (Z.of_N d) * DAY_MS)%Z
            else None
        | _, _, _ => None
        end
      else None
  | _ => None
  end.

Definition host : Host :=
  {| b64url_json := payload_text;
     b64url_json_inv := payload_of_text;
     b64url_header_alg := alg_of_text;
     hs256 := mac;
     hs384 := mac384;
     hs512 := mac512;
     bcrypt_hash := hash;
     bcrypt_compare := compare;
     Date_parse := parse_date;
     timezone_offset := 19800000%Z |}.

(** The same host on a server clock five hours west of UTC. *)
Definition host_west : Host :=
  {| b64url_json := payload_text;
     b64url_json_inv := payload_of_text;
     b64url_header_alg := alg_of_text;
     hs256 := mac;
     hs384 := mac384;
     hs512 := mac512;
     bcrypt_hash := hash;
     bcrypt_compare := compare;
     Date_parse := parse_date;
     timezone_offset := (-18000000)%Z |}.

(** A server started without [JWT_SECRET], and one started with it. *)
Definition env_unset : process_env := {| env_JWT_SECRET := None |}.

Definition env_set : process_env := {| env_JWT_SECRET := Some "s3cret" |}.

(** 2025-03-10, 12:00 UTC (17:30 on the server's clock). *)
Definition noon : Z := 1741608000000%Z.

Definition alice : User.t :=
  {| User._id := 0%N; User.username := "alice"; User.email := "alice@example.com";
     User.password := hash "wonderland" "salt"; User.zodiacSign := "Leo" |}.

Definition bob : User.t :=
  {| User._id := 1%N; User.username := "bob"; User.email := "bob@example.com";
     User.password := hash "builder" "pepper"; User.zodiacSign := "Aries" |}.

Definition booking (d : string) : Body.t :=
  {| Body.name := Some "Alice"; Body.email := Some "alice@example.com";
     Body.phone := Some "9876543210"; Body.date := Some d;
     Body.time := Some "10:30"; Body.astrologer := Some "Dr. Rao";
     Body.consultationType := Some "Birth chart";
     Body.status := None; Body.userId := None |}.

(** Alice's one booking, stored under identifier 2. *)
Definition alices_booking : Appointment.t :=
  new_Appointment (Body.spread_with (booking "2025-03-12") 0%N "pending") 2%N noon.

Definition db2 : Db :=
  {| users := [alice; bob]; appointments := [alices_booking]; next_id := 3%N |}.

Definition signup_as (name mail pass sign : string) : SignupBody.t :=
  {| SignupBody.username := Some name; SignupBody.email := Some mail;
     SignupBody.password := Some pass; SignupBody.zodiacSign := Some sign |}.

Definition login_as (name pass : string) : LoginBody.t :=
  {| LoginBody.username := Some name; LoginBody.password := Some pass |}.

Definition as_alice : Identity := {| userId := 0%N; username := "alice" |}.

Definition as_bob : Identity := {| userId := 1%N; username := "bob" |}.

End Demo.

(* ------------------------------------------------------------------ *)
(** ** The specification's vocabulary

    The definitions of this part follow the words of the specification,
    not the code; the theorems relate them to the handlers above. *)

(** Section 7: the client-input errors of the booking operation. *)
Inductive ValidationError : Type :=
| MissingField
| InvalidEmail
| InvalidPhone
| PastDate.

(** What the router answers for each of them. *)
Definition rejection (e : ValidationError) : Res.t :=
  Res.send 400
    (Res.Message
       match e with
       | MissingField => "All fields are required"
       | InvalidEmail => "Invalid email format"
       | InvalidPhone => "Invalid phone number format"
       | PastDate => "Please select a future date"
       end).

(** The calendar day of an instant on the server's clock. *)
Definition local_day (offset t : Z) : Z := ((t + offset) / DAY_MS)%Z.

(** Text that gives a date and no time ([YYYY-MM-DD]) is read as
    midnight UTC of the day it names; [day] counts days from
    1970-01-01. *)
Definition date_only_text (H : Host) (text : string) (day : Z) : Prop :=
  Date_parse H text = Some (day * DAY_MS)%Z.

(** Gate 1: one of the seven fields is absent or empty. *)
Definition missing_field (b : Body.t) : bool :=
  existsb Js.falsy
    [Body.name b; Body.email b; Body.phone b; Body.date b; Body.time b;
     Body.astrologer b; Body.consultationType b].

(** Gate 2: the email does not have the [local@domain.tld] shape. *)
Definition invalid_email (b : Body.t) : bool :=
  negb (Regex.test emailRegex (str (Body.email b))).

(** Gate 3: the phone is not exactly ten decimal digits. *)
Definition invalid_phone (b : Body.t) : bool :=
  negb (Regex.test phoneRegex (str (Body.phone b))).

(** Gate 4: the calendar day of the requested date precedes the current
    calendar day. *)
Definition past_date (H : Host) (now : Z) (b : Body.t) : bool :=
  match Date_parse H (str (Body.date b)) with
  | Some t => (local_day (timezone_offset H) t <? local_day (timezone_offset H) now)%Z
  | None => false
  end.

(** The four gates in the order of section 4.2. *)
Definition gates (H : Host) (now : Z) : list (ValidationError * (Body.t -> bool)) :=
  [(MissingField, missing_field); (InvalidEmail, invalid_email);
   (InvalidPhone, invalid_phone); (PastDate, past_date H now)].

(** The first gate, in that order, that the request fails. *)
Definition first_failure (H : Host) (now : Z) (b : Body.t) : option ValidationError :=
  option_map fst (List.find (fun g => snd g b) (gates H now)).

(** The record the booking operation stores for a request. *)
Definition booked (owner : ObjectId) (b : Body.t) (id : ObjectId) (now : Z)
  : Appointment.t :=
  {| Appointment._id := id;
     Appointment.name := Body.name b;
     Appointment.email := Body.email b;
     Appointment.phone := Body.phone b;
     Appointment.date := Body.date b;
     Appointment.time := Body.time b;
     Appointment.astrologer := Body.astrologer b;
     Appointment.consultationType := Body.consultationType b;
     Appointment.status := Some "pending";
     Appointment.userId := Some owner;
     Appointment.createdAt := now |}.

(** The same request with other [status] and [userId] values in it. *)
Definition with_status_userId (b : Body.t) (st : Js.value) (uid : option ObjectId)
  : Body.t :=
  {| Body.name := Body.name b; Body.email := Body.email b;
     Body.phone := Body.phone b; Body.date := Body.date b;
     Body.time := Body.time b; Body.astrologer := Body.astrologer b;
     Body.consultationType := Body.consultationType b;
     Body.status := st; Body.userId := uid |}.

(** Two records that agree on every field but [status]. *)
Definition same_but_status (a a' : Appointment.t) : Prop :=
  Appointment._id a' = Appointment._id a
  /\ Appointment.name a' = Appointment.name a
  /\ Appointment.email a' = Appointment.email a
  /\ Appointment.phone a' = Appointment.phone a
  /\ Appointment.date a' = Appointment.date a
  /\ Appointment.time a' = Appointment.time a
  /\ Appointment.astrologer a' = Appointment.astrologer a
  /\ Appointment.consultationType a' = Appointment.consultationType a
  /\ Appointment.userId a' = Appointment.userId a
  /\ Appointment.createdAt a' = Appointment.createdAt a.

(** Section 3: usernames and emails are each unique across all users. *)
Definition unique_users (db : Db) : Prop :=
  NoDup (map User.username (users db)) /\ NoDup (map User.email (users db)).

(** Identifiers are unique within the appointment collection. *)
Definition unique_appointment_ids (db : Db) : Prop :=
  NoDup (map Appointment._id (appointments db)).

(** A signup request whose username or email is already taken. *)
Definition taken (db : Db) (body : SignupBody.t) : Prop :=
  exists u, In u (users db) /\
    (SignupBody.username body = Some (User.username u)
     \/ SignupBody.email body = Some (User.email u)).

(** The duplicate check of the signup handler, for a request. *)
Definition same_email_or_username (body : SignupBody.t) : User.t -> bool :=
  User.by_email_or_username (str (SignupBody.email body)) (str (SignupBody.username body)).

(** A signup request with all four fields present. *)
Definition complete (body : SignupBody.t) : bool :=
  Js.truthy (SignupBody.username body) && Js.truthy (SignupBody.email body)
  && Js.truthy (SignupBody.password body) && Js.truthy (SignupBody.zodiacSign body).

(** No stored user has this username. *)
Definition unknown_username (db : Db) (name : Js.value) : Prop :=
  forall u, In u (users db) -> User.username u <> str name.

Definition conflict : Res.t := Res.send 400 (Res.Message "User already exists").

Definition all_fields_required : Res.t := Res.send 400 (Res.Message "All fields are required").

Definition invalid_credentials : Res.t := Res.send 401 (Res.Message "Invalid credentials").

Definition not_found : Res.t := Res.send 404 (Res.Message "Appointment not found").

Definition unauthenticated : Res.t :=
  Res.send 401 (Res.Message "Authorization token required").

Definition invalid_token : Res.t := Res.send 401 (Res.Message "Invalid token").

Definition internal_error : Res.t := Res.send 500 (Res.Message "Server error").

(** A request that carries a bearer credential, and the credential. *)
Definition bearer (authorization : Js.value) : bool :=
  Js.truthy authorization && Js.startsWith (str authorization) "Bearer ".

Definition credential (authorization : Js.value) : Js.value :=
  Js.index (Js.split " " (str authorization)) 1.

(** Errors of [jwt.verify] that say the token is bad: malformed, wrongly
    signed, unsigned, or expired.  The one library error that is about
    the server and not the token is the missing verification key. *)
Definition token_validity_issue (e : js_error) : bool :=
  match e with
  | TokenExpiredError _ => true
  | JsonWebTokenError m => negb (m =? "secret or public key must be provided")
  | Error _ => false
  end.

(** A character occurs in a string. *)
Fixpoint has_char (c : ascii) (s : string) : bool :=
  match s with
  | EmptyString => false
  | String x rest => Ascii.eqb x c || has_char c rest
  end.

(** Text that can stand as one segment of a compact token inside a
    bearer header: no dot and no space. *)
Definition segment_text (s : string) : bool :=
  negb (has_char "." s) && negb (has_char " " s).

(** *** The application as a whole

    The five routes that write to or read from the collections, as
    [server.js] mounts them, and the states the server can be in. *)

Inductive request : Type :=
| Signup (body : SignupBody.t) (salt : string)
| Login (body : LoginBody.t)
| Create (authorization : Js.value) (body : Body.t)
| UpdateStatus (authorization : Js.value) (id : ObjectId) (status : string)
| Cancel (authorization : Js.value) (id : ObjectId).

Definition serve (H : Host) (env : process_env) (r : request) (now : Z) : M Res.t :=
  match r with
  | Signup body salt => signup H env body salt now
  | Login body => login H env body now
  | Create authorization body =>
      protected H env (fun user => create H user body now) authorization now
  | UpdateStatus authorization id status =>
      protected H env (fun user => update_status user id status) authorization now
  | Cancel authorization id =>
      protected H env (fun user => cancel user id) authorization now
  end.

Inductive reachable (H : Host) (env : process_env) : Db -> Prop :=
| reachable_empty : reachable H env empty_db
| reachable_serve : forall (db : Db) (r : request) (now : Z),
    reachable H env db -> reachable H env (snd (serve H env r now db)).

(** What every reachable state satisfies. *)
Definition db_ok (db : Db) : Prop :=
  unique_users db
  /\ unique_appointment_ids db
  /\ Forall (fun i => (i < next_id db)%N) (map Appointment._id (appointments db)).

(** *** Three sentences of the specification, read to the letter

    Each is refuted below on a concrete request; the theorem that
    follows it states what the handler does instead. *)

(** Section 4.1: a fault of verification that is not about the token is
    answered with 500. *)
Definition verification_faults_answer_500 : Prop :=
  forall (H : Host) (env : process_env) (authorization : Js.value) (now : Z)
         (e : js_error),
    bearer authorization = true ->
    jwt.verify H (credential authorization) (env_JWT_SECRET env) now = Throw e ->
    token_validity_issue e = false ->
    auth H env authorization now = Sent internal_error.

(** Section 8: every login with an unknown username or a wrong password
    is answered with 401. *)
Definition bad_logins_answer_401 : Prop :=
  forall (H : Host) (env : process_env) (body : LoginBody.t) (now : Z) (db : Db),
    unknown_username db (LoginBody.username body)
    \/ (exists u, In u (users db)
          /\ User.username u = str (LoginBody.username body)
          /\ bcrypt_compare H (str (LoginBody.password body)) (User.password u) = false) ->
    exists r, login H env body now db = (Return r, db) /\ Res.status r = 401%Z.

(** Sections 3 and 8: whether a signup succeeds is decided by the
    uniqueness of its username and email alone. *)
Definition signups_decided_by_uniqueness : Prop :=
  forall (H : Host) (env : process_env) (body : SignupBody.t) (salt : string)
         (now : Z) (db : Db),
    unique_users db ->
    (taken db body -> signup H env body salt now db = (Return conflict, db))
    /\ (~ taken db body ->
        exists r db', signup H env body salt now db = (Return r, db')
                      /\ Res.status r = 201%Z).

(* ------------------------------------------------------------------ *)
(** ** The rest of the two files *)

(** *** The listing route: [router.get('/my-appointments', auth, ...)] *)

(** The filter [{ userId: owner }]. *)
Definition owned_by (owner : ObjectId) (d : Appointment.t) : bool :=
  match Appointment.userId d with
  | Some u => (u =? owner)%N
  | None => false
  end.

(** [.sort({ createdAt: -1 })]: newest first.  The database does not
    fix the order of records with equal [createdAt]; this sort leaves
    them in the order it meets them, and no statement below depends on
    it. *)
Fixpoint insert_newest_first (a : Appointment.t) (docs : list Appointment.t)
  : list Appointment.t :=
  match docs with
  | [] => [a]
  | b :: rest =>
      if (Appointment.createdAt b <? Appointment.createdAt a)%Z then a :: b :: rest
      else b :: insert_newest_first a rest
  end.

Definition sort_newest_first (docs : list Appointment.t) : list Appointment.t :=
  fold_right insert_newest_first [] docs.

(** What the listing route sends: [res.json(appointments)], a bare array
    under status 200, or the 500 message. *)
Inductive listing : Type :=
| Documents (status : Z) (docs : list Appointment.t)
| NoDocuments (response : Res.t).

Definition my_appointments (user : Identity) : M listing :=
  (try
     (found <- query (fun db =>
        sort_newest_first (List.filter (owned_by (userId user)) (appointments db))) ;;
      ret (Documents 200 found))
   catch error =>
     ret (NoDocuments
            (Res.send 500
               (Res.MessageError "Error fetching appointments" (message_of error)))))%handler.

(** Newest first. *)
Definition newer_or_same (a b : Appointment.t) : Prop :=
  (Appointment.createdAt b <= Appointment.createdAt a)%Z.

(** *** What the two patterns accept *)

Fixpoint all_chars (p : ascii -> bool) (s : string) : bool :=
  match s with
  | EmptyString => true
  | String c rest => p c && all_chars p rest
  end.

(** The language of a pattern. *)
Inductive matches : Regex.re -> string -> Prop :=
| matches_eps : matches Regex.Eps ""
| matches_class : forall (p : ascii -> bool) (c : ascii),
    p c = true -> matches (Regex.Class p) (String c "")
| matches_cat : forall (a b : Regex.re) (s t : string),
    matches a s -> matches b t -> matches (Regex.Cat a b) (s ++ t)
| matches_alt_l : forall (a b : Regex.re) (s : string),
    matches a s -> matches (Regex.Alt a b) s
| matches_alt_r : forall (a b : Regex.re) (s : string),
    matches b s -> matches (Regex.Alt a b) s
| matches_star_nil : forall a : Regex.re, matches (Regex.Star a) ""
| matches_star_cons : forall (a : Regex.re) (s t : string),
    matches a s -> matches (Regex.Star a) t -> matches (Regex.Star a) (s ++ t).

(** A non-empty run of characters that are neither white space nor
    [@]: what [[^\s@]+] matches. *)
Definition word (s : string) : Prop :=
  s <> "" /\ all_chars Regex.not_space_at s = true.

(** *** Tokens in transit *)

(** The payload [jwt.sign] builds at clock [now] with ['24h']. *)
Definition issued_payload (uid : ObjectId) (uname : string) (now : Z) : Payload.t :=
  {| Payload.userId := uid; Payload.username := uname;
     Payload.iat := (now / 1000)%Z; Payload.exp := (now / 1000 + 86400)%Z |}.

(** The host codes this payload, under this key, as a token that
    survives a bearer header: the payload segment reads back, and
    neither it nor the signature holds a dot or a space, as base64url
    text does not. *)
Definition codes_token (H : Host) (key : string) (p : Payload.t) : Prop :=
  b64url_json_inv H (b64url_json H p) = Some (Decoded.of_payload p)
  /\ segment_text (b64url_json H p) = true
  /\ segment_text (hs256 H key (jwt.signing_input H p)) = true
  /\ Js.trim_nonempty (hs256 H key (jwt.signing_input H p)) = true.

(** *** server.js: CORS *)

Definition allowedOrigins : list string :=
  ["https://astro-dailyhub.netlify.app";
   "https://679b24ee5484b82d5d1eb09f--astro-dailyhub.netlify.app";
   "http://localhost:5173";
   "http://localhost:5174"].

(** [xs.indexOf(x)] *)
Fixpoint indexOf_from (i : Z) (xs : list string) (x : string) : Z :=
  match xs with
  | [] => (-1)%Z
  | y :: rest => if y =? x then i else indexOf_from (i + 1)%Z rest x
  end.

Definition indexOf (xs : list string) (x : string) : Z := indexOf_from 0%Z xs x.

(** The [origin] function of the CORS options: the boolean it hands to
    [callback(null, _)]. *)
Definition cors_origin (origin : Js.value) : bool :=
  if Js.falsy origin then true
  else if (indexOf allowedOrigins (str origin) =? -1)%Z then false
  else true.

(** The [methods] option, and the verb and path of every route the two
    files register. *)
Definition cors_methods : list string := ["GET"; "POST"; "PUT"; "DELETE"; "OPTIONS"].

Definition routes : list (string * string) :=
  [("OPTIONS", "*");
   ("POST", "/api/auth/signup");
   ("POST", "/api/auth/login");
   ("POST", "/api/appointments/");
   ("GET", "/api/appointments/my-appointments");
   ("PATCH", "/api/appointments/:id");
   ("DELETE", "/api/appointments/:id");
   ("GET", "/api/test")].

(** *** server.js: [connectDB]

    [connect k] tells whether the attempt made with [retryCount = k]
    succeeds; the process either goes on, connected, or leaves through
    [process.exit(code)]. *)
Inductive startup : Type :=
| Connected (retryCount : nat)
| Exited (code : Z) (retryCount : nat).

Function connectDB (connect : nat -> bool) (retryCount : nat)
  {measure (fun k => (3 - k)%nat) retryCount} : startup :=
  if connect retryCount then Connected retryCount
  else if (retryCount <? 3)%nat then connectDB connect (S retryCount)
  else Exited 1 retryCount.
Proof.
  intros connect retryCount _ Hlt. apply Nat.ltb_lt in Hlt. lia.
Defined.

(** Milliseconds spent in [setTimeout(resolve, 5000)] before the outcome. *)
Definition waited (s : startup) : Z :=
  match s with
  | Connected k => (5000 * Z.of_nat k)%Z
  | Exited _ k => (5000 * Z.of_nat k)%Z
  end.

(** The records of [other] are the same in both states. *)
Definition others_untouched (other : ObjectId) (db db' : Db) : Prop :=
  filter (owned_by other) (appointments db') = filter (owned_by other) (appointments db).

(** Closes a case in which an attempt is said both to succeed and to
    fail. *)
Ltac attempt_clash connect Hall :=
  solve [ congruence
        | assert (connect 0%nat = false) by (apply Hall; lia); congruence
        | assert (connect 1%nat = false) by (apply Hall; lia); congruence
        | assert (connect 2%nat = false) by (apply Hall; lia); congruence
        | assert (connect 3%nat = false) by (apply Hall; lia); congruence ].


(* ------------------------------------------------------------------ *)
(** * Properties *)

(** ** Strings *)

Lemma split_nonempty : forall (c : ascii) (s : string),
  exists piece pieces, Js.split c s = piece :: pieces.
Proof.
  intros c s. induction s as [|x rest IH]; simpl.
  - eauto.
  - destruct (Ascii.eqb x c); [eauto|].
    destruct (Js.split c rest); eauto.
Qed.

Lemma split_without_separator : forall (c : ascii) (s : string),
  has_char c s = false -> Js.split c s = [s].
Proof.
  intros c s. induction s as [|x rest IH]; simpl; intros Hs.
  - reflexivity.
  - apply orb_false_iff in Hs. destruct Hs as [Hx Hrest].
    rewrite Hx, (IH Hrest). reflexivity.
Qed.

Lemma split_at_separator : forall (c : ascii) (a b : string),
  has_char c a = false ->
  Js.split c (a ++ String c b) = a :: Js.split c b.
Proof.
  intros c a b. induction a as [|x rest IH]; simpl; intros Ha.
  - rewrite Ascii.eqb_refl. reflexivity.
  - apply orb_false_iff in Ha. destruct Ha as [Hx Hrest].
    rewrite Hx, (IH Hrest). reflexivity.
Qed.

Lemma append_assoc : forall a b c : string, (a ++ b) ++ c = a ++ (b ++ c).
Proof.
  intros a b c. induction a as [|x rest IH]; simpl; [reflexivity|].
  now rewrite IH.
Qed.

Lemma has_char_append : forall (c : ascii) (a b : string),
  has_char c (a ++ b) = has_char c a || has_char c b.
Proof.
  intros c a b. induction a as [|x rest IH]; simpl; [reflexivity|].
  now rewrite IH, orb_assoc.
Qed.

Lemma truthy_some : forall v : Js.value,
  Js.truthy v = true -> v = Some (str v).
Proof.
  intros [s|]; [reflexivity|discriminate].
Qed.

(** The patterns on the examples of section 8. *)

Example email_plain : Regex.test emailRegex "ravi@example.com" = true.
Proof. reflexivity. Qed.

Example email_without_at : Regex.test emailRegex "not-an-email" = false.
Proof. reflexivity. Qed.

Example email_with_space : Regex.test emailRegex "ra vi@example.com" = false.
Proof. reflexivity. Qed.

Example phone_ten_digits : Regex.test phoneRegex "9876543210" = true.
Proof. reflexivity. Qed.

Example phone_five_digits : Regex.test phoneRegex "12345" = false.
Proof. reflexivity. Qed.

Example phone_eleven_digits : Regex.test phoneRegex "12345678901" = false.
Proof. reflexivity. Qed.

Example phone_with_separator : Regex.test phoneRegex "98765-4321" = false.
Proof. reflexivity. Qed.

(** ** Lists *)

Lemma NoDup_snoc : forall (A : Type) (l : list A) (x : A),
  NoDup l -> ~ In x l -> NoDup (l ++ [x])%list.
Proof.
  intros A l x Hl. induction Hl as [|a l Ha Hl IH]; simpl; intros Hx.
  - constructor; [intros []|constructor].
  - constructor.
    + rewrite in_app_iff. simpl. intros [Hin | [Heq | []]]; [tauto|].
      apply Hx. now left.
    + apply IH. intros Hin. apply Hx. now right.
Qed.

Lemma find_unique : forall (A B : Type) (key : A -> B) (f : A -> bool)
    (l : list A) (x : A),
  NoDup (map key l) ->
  In x l -> f x = true ->
  (forall y, In y l -> f y = true -> key y = key x) ->
  List.find f l = Some x.
Proof.
  intros A B key f l x. induction l as [|a l IH]; simpl; intros Hnd Hin Hfx Hkey.
  - destruct Hin.
  - inversion Hnd as [|? ? Hnotin Hnd']; subst.
    destruct (f a) eqn:Hfa.
    + destruct Hin as [E | Hin]; [now subst|].
      exfalso. apply Hnotin. rewrite (Hkey a (or_introl eq_refl) Hfa).
      now apply in_map.
    + destruct Hin as [E | Hin]; [subst; congruence|].
      apply IH; auto.
Qed.

Lemma unique_by_key : forall (A B : Type) (key : A -> B) (l : list A) (x y : A),
  NoDup (map key l) -> In x l -> In y l -> key x = key y -> x = y.
Proof.
  intros A B key l x y. induction l as [|a l IH]; simpl; intros Hnd Hx Hy E.
  - destruct Hx.
  - inversion Hnd as [|? ? Hnotin Hnd']; subst.
    destruct Hx as [Ex | Hx], Hy as [Ey | Hy]; subst.
    + reflexivity.
    + exfalso. apply Hnotin. rewrite E. now apply in_map.
    + exfalso. apply Hnotin. rewrite <- E. now apply in_map.
    + auto.
Qed.

Lemma same_db : forall db : Db,
  {| users := users db; appointments := appointments db; next_id := next_id db |} = db.
Proof. intros []. reflexivity. Qed.

(* ------------------------------------------------------------------ *)
(** ** The credential gate *)

Lemma JWT_SECRET_nonempty : forall env : process_env,
  (JWT_SECRET env =? "") = false.
Proof.
  intros [[s|]]; unfold JWT_SECRET, Js.or_else; simpl; [|reflexivity].
  destruct (s =? "") eqn:E; [reflexivity|exact E].
Qed.

Lemma JWT_SECRET_fallback : forall env : process_env,
  Js.falsy (env_JWT_SECRET env) = true ->
  JWT_SECRET env = "astrology_jwt_secret_key_2025".
Proof.
  intros [[s|]]; unfold JWT_SECRET, Js.or_else, Js.falsy; simpl; [|reflexivity].
  intros E. now rewrite E.
Qed.

(** With the fallback in place, signing never throws. *)
Lemma sign_returns : forall (H : Host) (uid : ObjectId) (uname : string)
    (env : process_env) (now : Z),
  jwt.sign H uid uname (JWT_SECRET env) jwt.expiresIn_24h now
  = Return
      (let p := {| Payload.userId := uid; Payload.username := uname;
                   Payload.iat := (now / 1000)%Z;
                   Payload.exp := (now / 1000 + 86400)%Z |} in
       jwt.signing_input H p ++ "." ++ hs256 H (JWT_SECRET env) (jwt.signing_input H p)).
Proof.
  intros. unfold jwt.sign. rewrite JWT_SECRET_nonempty. reflexivity.
Qed.

(** Without a key, verification throws whatever the token. *)
Lemma verify_without_key : forall (H : Host) (token key : Js.value) (now : Z),
  Js.falsy key = true ->
  exists e, jwt.verify H token key now = Throw e.
Proof.
  intros H token key now Hkey. unfold jwt.verify, Js.truthy. rewrite Hkey.
  destruct (Js.falsy token); [eauto|].
  destruct (Js.split "." (str token)) as [|h [|p [|s [|x more]]]]; eauto.
  destruct (jwt.header_alg H h); [|eauto].
  destruct (b64url_json_inv H p); [|eauto].
  destruct (Js.trim_nonempty s); simpl; eauto.
Qed.

(** What a token that verifies looks like. *)
Lemma verify_returns_inv : forall (H : Host) (token key : Js.value) (now : Z)
    (decoded : Decoded.t),
  jwt.verify H token key now = Return decoded ->
  exists header payload signature alg,
    Js.split "." (str token) = [header; payload; signature]
    /\ jwt.header_alg H header = Some (Some alg)
    /\ b64url_json_inv H payload = Some decoded
    /\ Js.truthy key = true
    /\ signature = jwt.hmac H alg (str key) (header ++ "." ++ payload)
    /\ jwt.not_yet_valid decoded (now / 1000) = false
    /\ jwt.expired decoded (now / 1000) = false.
Proof.
  intros H token key now decoded. unfold jwt.verify.
  destruct (Js.falsy token); [discriminate|].
  destruct (Js.split "." (str token)) as [|h [|p [|s [|x more]]]]; try discriminate.
  destruct (jwt.header_alg H h) as [a|] eqn:Ea; [|discriminate].
  destruct (b64url_json_inv H p) as [d|] eqn:Ed; [|discriminate].
  cbv zeta.
  destruct (Js.trim_nonempty s); cbn [negb andb].
  - unfold Js.truthy. destruct (Js.falsy key); cbn [negb andb]; [discriminate|].
    destruct a as [a|]; [|discriminate].
    destruct (s =? jwt.hmac H a (str key) (h ++ "." ++ p)) eqn:Es; cbn [negb];
      [|discriminate].
    destruct (jwt.not_yet_valid d (now / 1000)) eqn:En; [discriminate|].
    destruct (jwt.expired d (now / 1000)) eqn:Ee; [discriminate|].
    intros E. inversion E; subst decoded.
    apply String.eqb_eq in Es.
    exists h, p, s, a. repeat split; auto.
  - destruct (Js.truthy key); discriminate.
Qed.

Lemma header_HS256_alg : forall H : Host,
  jwt.header_alg H jwt.header_HS256 = Some (Some HS256).
Proof. intros H. reflexivity. Qed.

Lemma verify_accepts : forall (H : Host) (payload signature key : string)
    (now : Z) (decoded : Decoded.t),
  has_char "." payload = false ->
  has_char "." signature = false ->
  b64url_json_inv H payload = Some decoded ->
  Js.trim_nonempty signature = true ->
  (key =? "") = false ->
  signature = hs256 H key (jwt.header_HS256 ++ "." ++ payload) ->
  jwt.not_yet_valid decoded (now / 1000) = false ->
  jwt.expired decoded (now / 1000) = false ->
  jwt.verify H
    (Some (jwt.header_HS256 ++ String "." (payload ++ String "." signature)))
    (Some key) now
  = Return decoded.
Proof.
  intros H payload signature key now decoded Hp Hs Hinv Htrim Hkey Hsig Hnbf Hexp.
  unfold jwt.verify.
  replace (Js.falsy (Some (jwt.header_HS256
             ++ String "." (payload ++ String "." signature)))) with false
    by reflexivity.
  cbn [str].
  rewrite split_at_separator by reflexivity.
  rewrite split_at_separator by exact Hp.
  rewrite split_without_separator by exact Hs.
  rewrite header_HS256_alg, Hinv, Htrim. cbv zeta.
  unfold Js.truthy, Js.falsy. rewrite Hkey.
  cbn [negb andb jwt.hmac].
  rewrite <- Hsig, String.eqb_refl. cbn [negb].
  rewrite Hnbf, Hexp. reflexivity.
Qed.

(** The two outcomes of the header test. *)
Lemma auth_with_no_bearer : forall (env : process_env) verify
    (authorization : Js.value) (now : Z),
  bearer authorization = false ->
  auth_with env verify authorization now = Sent unauthenticated.
Proof.
  intros env verify authorization now Hb. unfold auth_with, bearer, Js.truthy in *.
  destruct (Js.falsy authorization); simpl in *; [reflexivity|].
  rewrite Hb. reflexivity.
Qed.

Lemma auth_with_bearer : forall (env : process_env) verify
    (authorization : Js.value) (now : Z),
  bearer authorization = true ->
  auth_with env verify authorization now
  = match verify (credential authorization) (env_JWT_SECRET env) now with
    | Return decoded =>
        Next {| userId := Decoded.userId decoded; username := Decoded.username decoded |}
    | Throw _ => Sent invalid_token
    end.
Proof.
  intros env verify authorization now Hb. unfold auth_with, bearer, Js.truthy in *.
  apply andb_true_iff in Hb. destruct Hb as [Hf Hs].
  apply negb_true_iff in Hf. rewrite Hf, Hs. simpl.
  unfold credential. destruct (verify _ _ _); reflexivity.
Qed.

Lemma bearer_header : forall token : string, bearer (Some ("Bearer " ++ token)) = true.
Proof. intros. reflexivity. Qed.

Lemma credential_of_header : forall token : string,
  exists first, credential (Some ("Bearer " ++ token)) = Some first
    /\ (has_char " " token = false -> first = token).
Proof.
  intros token. unfold credential. simpl.
  destruct (split_nonempty " " token) as [piece [pieces E]].
  rewrite E. simpl. exists piece. split; [reflexivity|].
  intros Hs. rewrite (split_without_separator _ _ Hs) in E. congruence.
Qed.

Lemma auth_sent_is_401 : forall (H : Host) (env : process_env)
    (authorization : Js.value) (now : Z) (response : Res.t),
  auth H env authorization now = Sent response ->
  response = unauthenticated \/ response = invalid_token.
Proof.
  intros H env authorization now response. unfold auth.
  destruct (bearer authorization) eqn:Hb.
  - rewrite auth_with_bearer by exact Hb.
    destruct (jwt.verify H _ _ now); [discriminate|].
    intros E. inversion E. auto.
  - rewrite auth_with_no_bearer by exact Hb.
    intros E. inversion E. auto.
Qed.

(** C1, on the code.  The claim is that a token issued at signup or
    login verifies, before its expiry, under every configuration of the
    signing secret.  [server.js] signs with
    [process.env.JWT_SECRET || 'astrology_jwt_secret_key_2025'], the
    middleware verifies with [process.env.JWT_SECRET] alone: when the
    variable is unset or empty, every issued token is signed with the
    fallback and then rejected with 401 "Invalid token", whoever the user
    and however soon it is presented. *)
Theorem issued_token_rejected_without_env_secret :
  forall (H : Host) (env : process_env) (uid : ObjectId) (uname : string)
         (issued checked : Z),
    Js.falsy (env_JWT_SECRET env) = true ->
    exists token,
      jwt.sign H uid uname (JWT_SECRET env) jwt.expiresIn_24h issued = Return token
      /\ JWT_SECRET env = "astrology_jwt_secret_key_2025"
      /\ auth H env (Some ("Bearer " ++ token)) checked = Sent invalid_token.
Proof.
  intros H env uid uname issued checked Hunset.
  rewrite sign_returns. eexists. split; [reflexivity|].
  split; [now apply JWT_SECRET_fallback|].
  unfold auth. rewrite auth_with_bearer by apply bearer_header.
  match goal with
  | |- context [jwt.verify H ?t ?k ?n] =>
      destruct (verify_without_key H t k n Hunset) as [e E]
  end.
  rewrite E. reflexivity.
Qed.

Lemma issued_token_rejected_without_env_secret_witness :
  Js.falsy (env_JWT_SECRET Demo.env_unset) = true
  /\ exists token,
       jwt.sign Demo.host 0%N "alice" (JWT_SECRET Demo.env_unset)
         jwt.expiresIn_24h Demo.noon = Return token
       /\ JWT_SECRET Demo.env_unset = "astrology_jwt_secret_key_2025"
       /\ auth Demo.host Demo.env_unset (Some ("Bearer " ++ token)) (Demo.noon + 60000)
          = Sent invalid_token.
Proof.
  split; [reflexivity|].
  apply (issued_token_rejected_without_env_secret Demo.host Demo.env_unset 0%N "alice"
           Demo.noon (Demo.noon + 60000)).
  reflexivity.
Defined.

(** The same on a whole exchange: alice logs in on a server started
    without [JWT_SECRET] and books with the token she was given. *)
Example login_then_book_without_env_secret :
  fst (login Demo.host Demo.env_unset (Demo.login_as "alice" "wonderland")
         Demo.noon Demo.db2)
  = Return (Res.send 200
      (Res.MessageTokenUser "Login successful"
         "eyJhbGciOiJIUzI1NiIsInR5cCI6IkpXVCJ9.0_1741608000_1741694400_alice.1951445549"
         (view Demo.alice)))
  /\ serve Demo.host Demo.env_unset
       (Create
          (Some "Bearer eyJhbGciOiJIUzI1NiIsInR5cCI6IkpXVCJ9.0_1741608000_1741694400_alice.1951445549")
          (Demo.booking "2025-03-12"))
       (Demo.noon + 60000) Demo.db2
     = (Return invalid_token, Demo.db2).
Proof. split; vm_compute; reflexivity. Qed.

(** Where the variable is set, issue and verify do share the secret, and
    the round trip holds before the expiry: for a payload that the
    segment coding reads back, and segments free of dots and spaces (as
    base64url text is). *)
Lemma issued_token_accepted_when_secret_set :
  forall (H : Host) (env : process_env) (uid : ObjectId) (uname : string)
         (issued checked : Z) (p : Payload.t),
    Js.truthy (env_JWT_SECRET env) = true ->
    p = {| Payload.userId := uid; Payload.username := uname;
           Payload.iat := (issued / 1000)%Z;
           Payload.exp := (issued / 1000 + 86400)%Z |} ->
    b64url_json_inv H (b64url_json H p) = Some (Decoded.of_payload p) ->
    segment_text (b64url_json H p) = true ->
    segment_text (hs256 H (JWT_SECRET env) (jwt.signing_input H p)) = true ->
    Js.trim_nonempty (hs256 H (JWT_SECRET env) (jwt.signing_input H p)) = true ->
    (checked / 1000 < issued / 1000 + 86400)%Z ->
    exists token,
      jwt.sign H uid uname (JWT_SECRET env) jwt.expiresIn_24h issued = Return token
      /\ auth H env (Some ("Bearer " ++ token)) checked
         = Next {| userId := uid; username := uname |}.
Proof.
  intros H env uid uname issued checked p Hkey Hp Hinv HP HS Htrim Hexp.
  rewrite sign_returns. rewrite <- Hp. cbv zeta.
  eexists. split; [reflexivity|].
  set (P := b64url_json H p) in *.
  assert (Hin : jwt.signing_input H p = jwt.header_HS256 ++ String "." P) by reflexivity.
  set (S := hs256 H (JWT_SECRET env) (jwt.signing_input H p)) in *.
  unfold segment_text in HP, HS.
  apply andb_true_iff in HP. destruct HP as [HPd HPs].
  apply andb_true_iff in HS. destruct HS as [HSd HSs].
  apply negb_true_iff in HPd, HPs, HSd, HSs.
  assert (Htok : jwt.signing_input H p ++ "." ++ S
                 = jwt.header_HS256 ++ String "." (P ++ String "." S)).
  { rewrite Hin. rewrite append_assoc. reflexivity. }
  assert (Hnospace : has_char " " (jwt.signing_input H p ++ "." ++ S) = false).
  { rewrite Htok. rewrite has_char_append. cbn [has_char].
    rewrite has_char_append. cbn [has_char]. rewrite HPs, HSs. reflexivity. }
  unfold auth. rewrite auth_with_bearer by apply bearer_header.
  destruct (credential_of_header (jwt.signing_input H p ++ "." ++ S))
    as [first [Hc Hfirst]].
  rewrite Hc, (Hfirst Hnospace). clear Hc Hfirst first.
  assert (Hk : env_JWT_SECRET env = Some (JWT_SECRET env)
               /\ (JWT_SECRET env =? "") = false).
  { unfold JWT_SECRET, Js.or_else, Js.truthy, Js.falsy in *.
    destruct (env_JWT_SECRET env) as [k|]; [|discriminate].
    destruct (k =? "") eqn:Ek; [discriminate|auto]. }
  destruct Hk as [Hk Hne]. rewrite Hk, Htok.
  rewrite (@verify_accepts H P S (JWT_SECRET env) checked (Decoded.of_payload p)); auto.
  - rewrite Hp. reflexivity.
  - rewrite Hp. unfold jwt.expired. cbn [Decoded.of_payload Decoded.exp Payload.exp].
    now apply Z.leb_gt.
Qed.

Lemma issued_token_accepted_on_demo_host :
  exists token,
    jwt.sign Demo.host 0%N "alice" (JWT_SECRET Demo.env_set) jwt.expiresIn_24h Demo.noon
      = Return token
    /\ auth Demo.host Demo.env_set (Some ("Bearer " ++ token)) (Demo.noon + 3600000)
       = Next {| userId := 0%N; username := "alice" |}.
Proof.
  apply (issued_token_accepted_when_secret_set Demo.host Demo.env_set 0%N "alice"
           Demo.noon (Demo.noon + 3600000) _ eq_refl eq_refl);
    vm_compute; reflexivity.
Defined.

(** One second past the 24 hours the same token is refused. *)
Example issued_token_expires :
  auth Demo.host Demo.env_set
    (Some "Bearer eyJhbGciOiJIUzI1NiIsInR5cCI6IkpXVCJ9.0_1741608000_1741694400_alice.3254167214")
    (Demo.noon + 86399999)
  = Next {| userId := 0%N; username := "alice" |}
  /\ auth Demo.host Demo.env_set
       (Some "Bearer eyJhbGciOiJIUzI1NiIsInR5cCI6IkpXVCJ9.0_1741608000_1741694400_alice.3254167214")
       (Demo.noon + 86400000)
     = Sent invalid_token.
Proof. split; vm_compute; reflexivity. Qed.

(** C8, as amended.  A request without a bearer header is answered 401
    "Authorization token required".  With a bearer header, whatever the
    verification call throws -- a malformed token, a signature that does
    not verify, an expired token, or a fault that is not about the token
    at all -- is answered 401 "Invalid token": the inner [catch] does
    not look at the error.  So are, with [jwt.verify] as the verification
    call: a credential that does not have three parts; one whose
    signature is not the MAC of header and payload under
    [process.env.JWT_SECRET] by the algorithm its header names; one whose
    payload carries an expiry that is not ahead.  The middleware answers
    nothing but 401, and a request it answers never reaches the route
    handler, so the collections are as they were. *)
Theorem auth_error_classification :
  forall (H : Host) (env : process_env) (authorization : Js.value) (now : Z),
    (bearer authorization = false ->
       auth H env authorization now = Sent unauthenticated)
    /\ (bearer authorization = true ->
        forall verify e,
          verify (credential authorization) (env_JWT_SECRET env) now = Throw e ->
          auth_with env verify authorization now = Sent invalid_token)
    /\ (bearer authorization = true ->
        forall header payload signature decoded expiry,
          length (Js.split "." (str (credential authorization))) <> 3%nat
          \/ (Js.split "." (str (credential authorization)) = [header; payload; signature]
              /\ forall alg, jwt.header_alg H header = Some (Some alg) ->
                   signature <> jwt.hmac H alg (str (env_JWT_SECRET env))
                                  (header ++ "." ++ payload))
          \/ (Js.split "." (str (credential authorization)) = [header; payload; signature]
              /\ b64url_json_inv H payload = Some decoded
              /\ Decoded.exp decoded = Some expiry
              /\ (expiry <= now / 1000)%Z) ->
          auth H env authorization now = Sent invalid_token)
    /\ (forall response,
          auth H env authorization now = Sent response ->
          Res.status response = 401%Z
          /\ forall handler db,
               protected H env handler authorization now db = (Return response, db)).
Proof.
  intros H env authorization now. repeat split.
  - intros Hb. unfold auth. now apply auth_with_no_bearer.
  - intros Hb verify e Hv. rewrite auth_with_bearer by exact Hb.
    rewrite Hv. reflexivity.
  - intros Hb header payload signature decoded expiry Hbad.
    unfold auth. rewrite auth_with_bearer by exact Hb.
    destruct (jwt.verify H (credential authorization) (env_JWT_SECRET env) now)
      as [d|e] eqn:Hv; [|reflexivity].
    exfalso. apply verify_returns_inv in Hv.
    destruct Hv as [h [p [s [a [Hsplit [Halg [Hinv [_ [Hsig [_ Hexp]]]]]]]]]].
    destruct Hbad as [Hlen | [[Hs Hne] | [Hs [Hi [He Hle]]]]].
    + rewrite Hsplit in Hlen. apply Hlen. reflexivity.
    + rewrite Hsplit in Hs. inversion Hs; subst. now apply (Hne a).
    + rewrite Hsplit in Hs. inversion Hs; subst.
      rewrite Hinv in Hi. inversion Hi; subst.
      unfold jwt.expired in Hexp. rewrite He in Hexp.
      apply Z.leb_gt in Hexp. lia.
  - destruct (auth_sent_is_401 H env authorization now response H0); subst; reflexivity.
  - intros handler db. unfold protected. rewrite H0. reflexivity.
Qed.

(** C8, read to the letter, fails: on a server started without
    [JWT_SECRET], a token this server issued makes [jwt.verify] throw
    for want of a key.  That fault is not about the token, and the
    answer is 401 "Invalid token", not 500. *)
Lemma missing_key_fault_answers_invalid_token :
  jwt.sign Demo.host 0%N "alice" (JWT_SECRET Demo.env_unset) jwt.expiresIn_24h Demo.noon
    = Return "eyJhbGciOiJIUzI1NiIsInR5cCI6IkpXVCJ9.0_1741608000_1741694400_alice.1951445549"
  /\ jwt.verify Demo.host
       (Some "eyJhbGciOiJIUzI1NiIsInR5cCI6IkpXVCJ9.0_1741608000_1741694400_alice.1951445549")
       (env_JWT_SECRET Demo.env_unset) Demo.noon
     = Throw (JsonWebTokenError "secret or public key must be provided")
  /\ auth Demo.host Demo.env_unset
       (Some "Bearer eyJhbGciOiJIUzI1NiIsInR5cCI6IkpXVCJ9.0_1741608000_1741694400_alice.1951445549")
       Demo.noon
     = Sent invalid_token
  /\ ~ verification_faults_answer_500.
Proof.
  split; [|split; [|split]]; try (vm_compute; reflexivity).
  intros claim.
  specialize (claim Demo.host Demo.env_unset
    (Some "Bearer eyJhbGciOiJIUzI1NiIsInR5cCI6IkpXVCJ9.0_1741608000_1741694400_alice.1951445549")
    Demo.noon (JsonWebTokenError "secret or public key must be provided")
    eq_refl eq_refl eq_refl).
  vm_compute in claim. discriminate claim.
Qed.

(** The three rejections of section 8 on the demo host. *)
Example auth_rejections :
  auth Demo.host Demo.env_set None Demo.noon = Sent unauthenticated
  /\ auth Demo.host Demo.env_set (Some "Basic YWxpY2U6eA==") Demo.noon
     = Sent unauthenticated
  /\ auth Demo.host Demo.env_set (Some "Bearer not.a-token") Demo.noon
     = Sent invalid_token
  /\ auth Demo.host Demo.env_set
       (Some "Bearer eyJhbGciOiJIUzI1NiIsInR5cCI6IkpXVCJ9.0_1741608000_1741694400_alice.1")
       Demo.noon
     = Sent invalid_token.
Proof. repeat split. Qed.

(* ------------------------------------------------------------------ *)
(** ** Signup *)

Lemma complete_spec : forall body : SignupBody.t,
  complete body
  = negb (Js.falsy (SignupBody.username body) || Js.falsy (SignupBody.email body)
          || Js.falsy (SignupBody.password body) || Js.falsy (SignupBody.zodiacSign body)).
Proof.
  intros body. unfold complete, Js.truthy.
  now rewrite !negb_orb.
Qed.

Lemma taken_iff : forall (db : Db) (body : SignupBody.t),
  complete body = true ->
  taken db body <->
  exists u, User.findOne (same_email_or_username body) (users db) = Some u.
Proof.
  intros db body Hc. rewrite complete_spec in Hc. apply negb_true_iff in Hc.
  repeat (apply orb_false_iff in Hc; destruct Hc as [Hc ?]).
  assert (Hu : SignupBody.username body = Some (str (SignupBody.username body)))
    by (apply truthy_some; unfold Js.truthy; now rewrite Hc).
  assert (He : SignupBody.email body = Some (str (SignupBody.email body)))
    by (apply truthy_some; unfold Js.truthy; now rewrite H1).
  unfold User.findOne. split.
  - intros [u [Hin Hsame]].
    destruct (find (same_email_or_username body) (users db)) as [v|] eqn:Hf; [eauto|].
    exfalso. pose proof (List.find_none _ _ Hf u Hin) as Hno.
    unfold same_email_or_username, User.by_email_or_username in Hno.
    apply orb_false_iff in Hno.
    destruct Hno as [Hne Hnu]. apply String.eqb_neq in Hne, Hnu.
    destruct Hsame as [E | E]; rewrite E in *; simpl in *; congruence.
  - intros [u Hf]. apply List.find_some in Hf. destruct Hf as [Hin Hsame].
    exists u. split; [exact Hin|].
    unfold same_email_or_username, User.by_email_or_username in Hsame.
    apply orb_true_iff in Hsame.
    destruct Hsame as [E | E]; apply String.eqb_eq in E; rewrite E; auto.
Qed.

Lemma signup_incomplete : forall (H : Host) (env : process_env)
    (body : SignupBody.t) (salt : string) (now : Z) (db : Db),
  complete body = false ->
  signup H env body salt now db = (Return all_fields_required, db).
Proof.
  intros H env body salt now db Hc. rewrite complete_spec in Hc.
  apply negb_false_iff in Hc. unfold signup, try_catch_M. rewrite Hc. reflexivity.
Qed.

Lemma signup_complete : forall (H : Host) (env : process_env)
    (body : SignupBody.t) (salt : string) (now : Z) (db : Db),
  complete body = true ->
  signup H env body salt now db
  = match User.findOne (same_email_or_username body) (users db) with
    | Some _ => (Return conflict, db)
    | None =>
        let user := {| User._id := next_id db;
                       User.username := str (SignupBody.username body);
                       User.email := str (SignupBody.email body);
                       User.password := bcrypt_hash H (str (SignupBody.password body)) salt;
                       User.zodiacSign := str (SignupBody.zodiacSign body) |} in
        let p := {| Payload.userId := next_id db;
                    Payload.username := str (SignupBody.username body);
                    Payload.iat := (now / 1000)%Z;
                    Payload.exp := (now / 1000 + 86400)%Z |} in
        (Return (Res.send 201
                   (Res.MessageTokenUser "User created successfully"
                      (jwt.signing_input H p ++ "."
                         ++ hs256 H (JWT_SECRET env) (jwt.signing_input H p))
                      (view user))),
         {| users := (users db ++ [user])%list; appointments := appointments db;
            next_id := N.succ (next_id db) |})
    end.
Proof.
  intros H env body salt now db Hc. rewrite complete_spec in Hc.
  apply negb_true_iff in Hc. unfold signup, try_catch_M, bind, query. rewrite Hc.
  fold (same_email_or_username body).
  destruct (User.findOne (same_email_or_username body) (users db)); [reflexivity|].
  unfold new_ObjectId, save_user, lift. cbn [User._id User.username].
  rewrite sign_returns. reflexivity.
Qed.

Lemma fresh_names : forall (db : Db) (body : SignupBody.t),
  User.findOne (same_email_or_username body) (users db) = None ->
  ~ In (str (SignupBody.username body)) (map User.username (users db))
  /\ ~ In (str (SignupBody.email body)) (map User.email (users db)).
Proof.
  intros db body Hf. unfold User.findOne in Hf.
  pose proof (List.find_none _ _ Hf) as Hno.
  split; rewrite in_map_iff; intros [u [E Hin]]; specialize (Hno u Hin);
    unfold same_email_or_username, User.by_email_or_username in Hno;
    apply orb_false_iff in Hno; destruct Hno as [Hne Hnu];
    apply String.eqb_neq in Hne, Hnu; congruence.
Qed.

Lemma signup_preserves_unique_users : forall (H : Host) (env : process_env)
    (body : SignupBody.t) (salt : string) (now : Z) (db : Db),
  unique_users db -> unique_users (snd (signup H env body salt now db)).
Proof.
  intros H env body salt now db [Hnames Hemails].
  destruct (complete body) eqn:Hc.
  2:{ rewrite signup_incomplete by exact Hc. split; assumption. }
  rewrite signup_complete by exact Hc.
  destruct (User.findOne (same_email_or_username body) (users db)) as [v|] eqn:Hf;
    [split; assumption|].
  destruct (fresh_names db body Hf) as [Hnn Hne].
  unfold unique_users. cbn [snd users]. rewrite !map_app.
  cbn [map User.username User.email].
  split; apply NoDup_snoc; assumption.
Qed.

Lemma demo_users_unique : unique_users Demo.db2.
Proof.
  split; vm_compute; repeat constructor; vm_compute; intuition congruence.
Qed.

(** C10.  A signup request in which one of [username], [email],
    [password], [zodiacSign] is absent or empty is answered 400 "All
    fields are required", whatever the stored users are (the duplicate
    query has not run); no user is stored and the answer carries no
    token. *)
Theorem signup_presence_gate :
  forall (H : Host) (env : process_env) (body : SignupBody.t) (salt : string)
         (now : Z) (db : Db),
    Js.falsy (SignupBody.username body) = true
    \/ Js.falsy (SignupBody.email body) = true
    \/ Js.falsy (SignupBody.password body) = true
    \/ Js.falsy (SignupBody.zodiacSign body) = true ->
    signup H env body salt now db = (Return all_fields_required, db)
    /\ Res.status all_fields_required = 400%Z
    /\ Res.token_of all_fields_required = None.
Proof.
  intros H env body salt now db Hmissing.
  split; [|split; reflexivity].
  apply signup_incomplete. rewrite complete_spec. apply negb_false_iff.
  destruct Hmissing as [E | [E | [E | E]]]; rewrite E;
    repeat rewrite orb_true_r; reflexivity.
Qed.

Lemma signup_presence_gate_witness :
  signup Demo.host Demo.env_set
    {| SignupBody.username := Some "alice"; SignupBody.email := Some "alice@example.com";
       SignupBody.password := Some "wonderland"; SignupBody.zodiacSign := None |}
    "salt" Demo.noon Demo.db2
  = (Return all_fields_required, Demo.db2)
  /\ Res.status all_fields_required = 400%Z
  /\ Res.token_of all_fields_required = None.
Proof.
  apply (signup_presence_gate Demo.host Demo.env_set _ "salt" Demo.noon Demo.db2).
  right. right. right. reflexivity.
Defined.

(** C6, as amended.  Signup keeps usernames and emails unique.  For a
    request with all four fields present: if its username or email is
    that of a stored user it is answered 400 "User already exists" and
    nothing is stored; otherwise it is answered 201, exactly one user
    is appended, and the same request sent again is answered 400 "User
    already exists". *)
Theorem signup_uniqueness :
  forall (H : Host) (env : process_env) (body : SignupBody.t) (salt : string)
         (now : Z) (db : Db),
    unique_users db ->
    unique_users (snd (signup H env body salt now db))
    /\ (complete body = true -> taken db body ->
        signup H env body salt now db = (Return conflict, db))
    /\ (complete body = true -> ~ taken db body ->
        exists token user db',
          signup H env body salt now db
          = (Return (Res.send 201
                       (Res.MessageTokenUser "User created successfully" token (view user))),
             db')
          /\ users db' = (users db ++ [user])%list
          /\ appointments db' = appointments db
          /\ User.username user = str (SignupBody.username body)
          /\ User.email user = str (SignupBody.email body)
          /\ forall salt' now',
               signup H env body salt' now' db' = (Return conflict, db')).
Proof.
  intros H env body salt now db Hu.
  split; [now apply signup_preserves_unique_users|].
  split.
  - intros Hc Ht. apply (taken_iff db body Hc) in Ht. destruct Ht as [u Hf].
    rewrite signup_complete by exact Hc. now rewrite Hf.
  - intros Hc Hfresh. rewrite signup_complete by exact Hc.
    destruct (User.findOne (same_email_or_username body) (users db)) as [v|] eqn:Hf.
    { exfalso. apply Hfresh, (taken_iff db body Hc). eauto. }
    cbv zeta. eexists. eexists. eexists.
    split; [reflexivity|]. cbn [users appointments User.username User.email].
    repeat split.
    intros salt' now'. rewrite signup_complete by exact Hc. cbn [users].
    destruct (User.findOne (same_email_or_username body) (users db ++ [_])%list)
      as [w|] eqn:Hw; [reflexivity|].
    exfalso. unfold User.findOne in Hw.
    pose proof (List.find_none _ _ Hw) as Hno'.
    match type of Hw with
    | find _ (_ ++ [?u])%list = None =>
        assert (Hlast : In u (users db ++ [u])%list)
          by (apply in_app_iff; right; left; reflexivity);
        specialize (Hno' u Hlast)
    end.
    unfold same_email_or_username, User.by_email_or_username in Hno'.
    cbn [User.email User.username] in Hno'.
    rewrite !String.eqb_refl in Hno'. discriminate.
Qed.

Lemma signup_uniqueness_witness :
  unique_users Demo.db2
  /\ unique_users
       (snd (signup Demo.host Demo.env_set
               (Demo.signup_as "carol" "carol@example.com" "secret" "Virgo")
               "salt" Demo.noon Demo.db2))
  /\ signup Demo.host Demo.env_set
       (Demo.signup_as "carol" "alice@example.com" "secret" "Virgo")
       "salt" Demo.noon Demo.db2
     = (Return conflict, Demo.db2)
  /\ exists token user db',
       signup Demo.host Demo.env_set
         (Demo.signup_as "carol" "carol@example.com" "secret" "Virgo")
         "salt" Demo.noon Demo.db2
       = (Return (Res.send 201
                    (Res.MessageTokenUser "User created successfully" token (view user))),
          db')
       /\ users db' = (users Demo.db2 ++ [user])%list.
Proof.
  split; [exact demo_users_unique|].
  split; [|split].
  - apply (signup_uniqueness Demo.host Demo.env_set
             (Demo.signup_as "carol" "carol@example.com" "secret" "Virgo")
             "salt" Demo.noon Demo.db2 demo_users_unique).
  - destruct (signup_uniqueness Demo.host Demo.env_set
                (Demo.signup_as "carol" "alice@example.com" "secret" "Virgo")
                "salt" Demo.noon Demo.db2 demo_users_unique) as [_ [Hdup _]].
    apply Hdup; [reflexivity|].
    exists Demo.alice. split; [left; reflexivity|right; reflexivity].
  - destruct (signup_uniqueness Demo.host Demo.env_set
                (Demo.signup_as "carol" "carol@example.com" "secret" "Virgo")
                "salt" Demo.noon Demo.db2 demo_users_unique) as [_ [_ Hfresh]].
    destruct Hfresh as [token [user [db' [E [Hus _]]]]]; [reflexivity| |].
    + intros [u [Hin Hsame]]. simpl in Hin, Hsame.
      destruct Hin as [E | [E | []]]; subst u; simpl in Hsame;
        destruct Hsame; discriminate.
    + exists token, user, db'. split; assumption.
Defined.

(** C6, read to the letter, fails: the presence gate runs before the
    duplicate query.  A request under alice's username with an empty
    password is answered "All fields are required", not "User already
    exists"; a request with a fresh username and email and an empty
    password does not succeed. *)
Lemma signup_with_empty_password_is_not_decided_by_uniqueness :
  taken Demo.db2 (Demo.signup_as "alice" "a@example.org" "" "Leo")
  /\ signup Demo.host Demo.env_set (Demo.signup_as "alice" "a@example.org" "" "Leo")
       "salt" Demo.noon Demo.db2
     = (Return all_fields_required, Demo.db2)
  /\ all_fields_required <> conflict
  /\ ~ taken Demo.db2 (Demo.signup_as "carol" "carol@example.com" "" "Virgo")
  /\ signup Demo.host Demo.env_set
       (Demo.signup_as "carol" "carol@example.com" "" "Virgo")
       "salt" Demo.noon Demo.db2
     = (Return all_fields_required, Demo.db2)
  /\ ~ signups_decided_by_uniqueness.
Proof.
  assert (Ht : taken Demo.db2 (Demo.signup_as "alice" "a@example.org" "" "Leo")).
  { exists Demo.alice. split; [left; reflexivity|left; reflexivity]. }
  repeat split; try exact Ht; try reflexivity; try discriminate.
  - intros [u [Hin Hsame]]. simpl in Hin, Hsame.
    destruct Hin as [E | [E | []]]; subst u; simpl in Hsame;
      destruct Hsame; discriminate.
  - intros claim.
    destruct (claim Demo.host Demo.env_set
                (Demo.signup_as "alice" "a@example.org" "" "Leo")
                "salt" Demo.noon Demo.db2 demo_users_unique) as [Hdup _].
    specialize (Hdup Ht). vm_compute in Hdup. discriminate Hdup.
Qed.

(* ------------------------------------------------------------------ *)
(** ** Login *)

Lemma login_absent : forall (H : Host) (env : process_env) (body : LoginBody.t)
    (now : Z) (db : Db),
  Js.falsy (LoginBody.username body) || Js.falsy (LoginBody.password body) = true ->
  login H env body now db
  = (Return (Res.send 400 (Res.Message "Username and password are required")), db).
Proof.
  intros H env body now db Hm. unfold login, try_catch_M. rewrite Hm. reflexivity.
Qed.

Lemma login_present : forall (H : Host) (env : process_env) (body : LoginBody.t)
    (now : Z) (db : Db),
  Js.truthy (LoginBody.username body) = true ->
  Js.truthy (LoginBody.password body) = true ->
  login H env body now db
  = match User.findOne (User.by_username (str (LoginBody.username body))) (users db) with
    | None => (Return invalid_credentials, db)
    | Some user =>
        if bcrypt_compare H (str (LoginBody.password body)) (User.password user) then
          let p := {| Payload.userId := User._id user;
                      Payload.username := User.username user;
                      Payload.iat := (now / 1000)%Z;
                      Payload.exp := (now / 1000 + 86400)%Z |} in
          (Return (Res.send 200
                     (Res.MessageTokenUser "Login successful"
                        (jwt.signing_input H p ++ "."
                           ++ hs256 H (JWT_SECRET env) (jwt.signing_input H p))
                        (view user))), db)
        else (Return invalid_credentials, db)
    end.
Proof.
  intros H env body now db Hu Hp. unfold Js.truthy in Hu, Hp.
  apply negb_true_iff in Hu, Hp.
  unfold login, try_catch_M, bind, query. rewrite Hu, Hp. cbn [orb].
  destruct (User.findOne _ (users db)) as [user|]; [|reflexivity].
  destruct (bcrypt_compare H _ (User.password user)); cbn [negb]; [|reflexivity].
  unfold lift. rewrite sign_returns. reflexivity.
Qed.

Lemma login_reads_only : forall (H : Host) (env : process_env) (body : LoginBody.t)
    (now : Z) (db : Db),
  snd (login H env body now db) = db.
Proof.
  intros H env body now db.
  destruct (Js.falsy (LoginBody.username body) || Js.falsy (LoginBody.password body))
    eqn:Hm.
  - now rewrite login_absent.
  - apply orb_false_iff in Hm. destruct Hm as [Hu Hp].
    rewrite login_present by (unfold Js.truthy; rewrite ?Hu, ?Hp; reflexivity).
    destruct (User.findOne _ (users db)) as [user|]; [|reflexivity].
    destruct (bcrypt_compare H _ _); reflexivity.
Qed.

(** C7, as amended.  For a login request with username and password
    both present, over users with unique usernames: if the username is
    that of a stored user and the password matches the stored hash, the
    answer is 200 with a token whose payload carries that user's id and
    username, issued at the clock and expiring 24 hours later; if the
    username is unknown, or the password does not match, the answer is
    401 "Invalid credentials" -- the same response in both cases -- and
    nothing is written. *)
Theorem login_behaviour :
  forall (H : Host) (env : process_env) (body : LoginBody.t) (now : Z) (db : Db),
    Js.truthy (LoginBody.username body) = true ->
    Js.truthy (LoginBody.password body) = true ->
    NoDup (map User.username (users db)) ->
    (forall u, In u (users db) ->
       User.username u = str (LoginBody.username body) ->
       bcrypt_compare H (str (LoginBody.password body)) (User.password u) = true ->
       exists token p,
         login H env body now db
         = (Return (Res.send 200
                      (Res.MessageTokenUser "Login successful" token (view u))), db)
         /\ jwt.sign H (User._id u) (User.username u) (JWT_SECRET env)
              jwt.expiresIn_24h now = Return token
         /\ token = jwt.header_HS256 ++ "." ++ b64url_json H p ++ "."
                    ++ hs256 H (JWT_SECRET env)
                         (jwt.header_HS256 ++ "." ++ b64url_json H p)
         /\ Payload.userId p = User._id u
         /\ Payload.username p = User.username u
         /\ Payload.iat p = (now / 1000)%Z
         /\ Payload.exp p = (Payload.iat p + 24 * 60 * 60)%Z)
    /\ (unknown_username db (LoginBody.username body) ->
        login H env body now db = (Return invalid_credentials, db))
    /\ (forall u, In u (users db) ->
        User.username u = str (LoginBody.username body) ->
        bcrypt_compare H (str (LoginBody.password body)) (User.password u) = false ->
        login H env body now db = (Return invalid_credentials, db))
    /\ Res.status invalid_credentials = 401%Z.
Proof.
  intros H env body now db Hu Hp Hnd.
  rewrite (login_present H env body now db Hu Hp).
  assert (Hfind : forall u, In u (users db) ->
            User.username u = str (LoginBody.username body) ->
            User.findOne (User.by_username (str (LoginBody.username body))) (users db)
            = Some u).
  { intros u Hin Hname. unfold User.findOne.
    apply (find_unique User.t string User.username); auto.
    - unfold User.by_username. now apply String.eqb_eq.
    - intros y _ Hy. unfold User.by_username in Hy. apply String.eqb_eq in Hy.
      congruence. }
  repeat split.
  - intros u Hin Hname Hok. rewrite (Hfind u Hin Hname), Hok. cbv zeta.
    eexists.
    exists {| Payload.userId := User._id u; Payload.username := User.username u;
              Payload.iat := (now / 1000)%Z; Payload.exp := (now / 1000 + 86400)%Z |}.
    split; [reflexivity|]. split; [apply sign_returns|].
    split; [|repeat split].
    unfold jwt.signing_input. rewrite !append_assoc. reflexivity.
  - intros Hunknown.
    destruct (User.findOne _ (users db)) as [v|] eqn:Hf; [|reflexivity].
    exfalso. unfold User.findOne in Hf. apply List.find_some in Hf.
    destruct Hf as [Hin Hv]. unfold User.by_username in Hv.
    apply String.eqb_eq in Hv. exact (Hunknown v Hin Hv).
  - intros u Hin Hname Hbad. rewrite (Hfind u Hin Hname), Hbad. reflexivity.
Qed.

Lemma login_behaviour_witness :
  (exists token,
     login Demo.host Demo.env_set (Demo.login_as "alice" "wonderland") Demo.noon Demo.db2
     = (Return (Res.send 200
                  (Res.MessageTokenUser "Login successful" token (view Demo.alice))),
        Demo.db2))
  /\ login Demo.host Demo.env_set (Demo.login_as "alice" "rabbit") Demo.noon Demo.db2
     = (Return invalid_credentials, Demo.db2)
  /\ login Demo.host Demo.env_set (Demo.login_as "ghost" "rabbit") Demo.noon Demo.db2
     = (Return invalid_credentials, Demo.db2).
Proof.
  pose proof (proj1 demo_users_unique) as Hnd.
  split; [|split].
  - destruct (login_behaviour Demo.host Demo.env_set
                (Demo.login_as "alice" "wonderland")
                Demo.noon Demo.db2 eq_refl eq_refl Hnd) as [Hok _].
    destruct (Hok Demo.alice (or_introl eq_refl) eq_refl eq_refl) as [token [p [E _]]].
    exists token. exact E.
  - destruct (login_behaviour Demo.host Demo.env_set (Demo.login_as "alice" "rabbit")
                Demo.noon Demo.db2 eq_refl eq_refl Hnd) as [_ [_ [Hbad _]]].
    exact (Hbad Demo.alice (or_introl eq_refl) eq_refl eq_refl).
  - destruct (login_behaviour Demo.host Demo.env_set (Demo.login_as "ghost" "rabbit")
                Demo.noon Demo.db2 eq_refl eq_refl Hnd) as [_ [Hunknown _]].
    apply Hunknown. intros u Hin. simpl in Hin.
    destruct Hin as [E | [E | []]]; subst u; discriminate.
Defined.

(** C7, read to the letter, fails: the presence gate runs before the
    lookup, so an unknown username with an empty password is answered
    400, not 401. *)
Lemma login_with_empty_password_answers_400 :
  unknown_username Demo.db2 (Some "ghost")
  /\ login Demo.host Demo.env_set (Demo.login_as "ghost" "") Demo.noon Demo.db2
     = (Return (Res.send 400 (Res.Message "Username and password are required")),
        Demo.db2)
  /\ ~ bad_logins_answer_401.
Proof.
  assert (Hg : unknown_username Demo.db2 (Some "ghost")).
  { intros u Hin. simpl in Hin. destruct Hin as [E | [E | []]]; subst u; discriminate. }
  split; [exact Hg|]. split; [reflexivity|].
  intros claim.
  destruct (claim Demo.host Demo.env_set (Demo.login_as "ghost" "")
              Demo.noon Demo.db2 (or_introl Hg)) as [r [E Hs]].
  vm_compute in E. inversion E; subst r. discriminate Hs.
Qed.
(* ------------------------------------------------------------------ *)
(** ** Booking *)

Lemma DAY_MS_pos : (0 < DAY_MS)%Z.
Proof. reflexivity. Qed.

Lemma setHours_0_is_day_start : forall offset now : Z,
  setHours_0 offset now = (DAY_MS * local_day offset now - offset)%Z.
Proof.
  intros offset now. unfold setHours_0, local_day.
  pose proof (Z.div_mod (now + offset) DAY_MS) as E.
  assert (DAY_MS <> 0%Z) as Hnz by discriminate.
  specialize (E Hnz). lia.
Qed.

Lemma before_day_start : forall offset t now : Z,
  (t <? setHours_0 offset now)%Z = (local_day offset t <? local_day offset now)%Z.
Proof.
  intros offset t now. rewrite setHours_0_is_day_start. unfold local_day.
  set (q := ((now + offset) / DAY_MS)%Z).
  pose proof DAY_MS_pos as Hpos.
  pose proof (Z.div_mod (t + offset) DAY_MS) as E.
  pose proof (Z.mod_pos_bound (t + offset) DAY_MS Hpos) as Hb.
  assert (DAY_MS <> 0%Z) as Hnz by lia. specialize (E Hnz).
  destruct (Z.ltb_spec ((t + offset) / DAY_MS) q) as [Hlt | Hge].
  - apply Z.ltb_lt. nia.
  - apply Z.ltb_ge. nia.
Qed.

Lemma normalized_order : forall offset t now : Z,
  (setHours_0 offset t < setHours_0 offset now)%Z
  <-> (local_day offset t < local_day offset now)%Z.
Proof.
  intros offset t now. rewrite !setHours_0_is_day_start.
  pose proof DAY_MS_pos. nia.
Qed.

Lemma date_gate : forall (H : Host) (now : Z) (b : Body.t),
  date_lt (Date_parse H (str (Body.date b))) (setHours_0 (timezone_offset H) now)
  = past_date H now b.
Proof.
  intros H now b. unfold past_date, date_lt.
  destruct (Date_parse H (str (Body.date b))); [apply before_day_start|reflexivity].
Qed.

Lemma missing_field_spec : forall b : Body.t,
  Js.falsy (Body.name b) || Js.falsy (Body.email b) || Js.falsy (Body.phone b)
  || Js.falsy (Body.date b) || Js.falsy (Body.time b) || Js.falsy (Body.astrologer b)
  || Js.falsy (Body.consultationType b)
  = missing_field b.
Proof.
  intros b. unfold missing_field. cbn [existsb].
  now rewrite orb_false_r, !orb_assoc.
Qed.

Lemma first_failure_cases : forall (H : Host) (now : Z) (b : Body.t),
  first_failure H now b
  = if missing_field b then Some MissingField
    else if invalid_email b then Some InvalidEmail
    else if invalid_phone b then Some InvalidPhone
    else if past_date H now b then Some PastDate
    else None.
Proof.
  intros H now b. unfold first_failure, gates. cbn [find snd].
  destruct (missing_field b); [reflexivity|].
  destruct (invalid_email b); [reflexivity|].
  destruct (invalid_phone b); [reflexivity|].
  destruct (past_date H now b); reflexivity.
Qed.

Lemma create_cases : forall (H : Host) (user : Identity) (body : Body.t)
    (now : Z) (db : Db),
  create H user body now db
  = match first_failure H now body with
    | Some e => (Return (rejection e), db)
    | None =>
        let a := booked (userId user) body (next_id db) now in
        (Return (Res.send 201
                   (Res.MessageAppointment "Appointment booked successfully Thank you!" a)),
         {| users := users db; appointments := (appointments db ++ [a])%list;
            next_id := N.succ (next_id db) |})
    end.
Proof.
  intros H user body now db. rewrite first_failure_cases.
  unfold create, try_catch_M. rewrite missing_field_spec, date_gate.
  fold (invalid_email body). fold (invalid_phone body).
  destruct (missing_field body); [reflexivity|].
  destruct (invalid_email body); [reflexivity|].
  destruct (invalid_phone body); [reflexivity|].
  destruct (past_date H now body); reflexivity.
Qed.

(** C4.  The booking handler rejects a request with the error of the
    first gate it fails, in the order presence, email shape, phone
    shape, date; whenever any gate fails, [first_failure] names one,
    and the collections are returned as they were. *)
Theorem create_validation_order :
  forall (H : Host) (user : Identity) (body : Body.t) (now : Z) (db : Db),
    (forall e, first_failure H now body = Some e ->
       create H user body now db = (Return (rejection e), db))
    /\ (existsb (fun g => snd g body) (gates H now) = true ->
        exists e, first_failure H now body = Some e)
    /\ (first_failure H now body = Some MissingField <-> missing_field body = true)
    /\ (first_failure H now body = Some InvalidEmail <->
        missing_field body = false /\ invalid_email body = true)
    /\ (first_failure H now body = Some InvalidPhone <->
        missing_field body = false /\ invalid_email body = false
        /\ invalid_phone body = true)
    /\ (first_failure H now body = Some PastDate <->
        missing_field body = false /\ invalid_email body = false
        /\ invalid_phone body = false /\ past_date H now body = true).
Proof.
  intros H user body now db. split; [|split].
  - intros e He. rewrite create_cases, He. reflexivity.
  - rewrite first_failure_cases. unfold gates. cbn [existsb snd].
    destruct (missing_field body); [eauto|].
    destruct (invalid_email body); [eauto|].
    destruct (invalid_phone body); [eauto|].
    destruct (past_date H now body); [eauto|discriminate].
  - rewrite first_failure_cases.
    destruct (missing_field body), (invalid_email body), (invalid_phone body),
      (past_date H now body); intuition congruence.
Qed.

(** C9.  A request that passes the four gates stores exactly one
    record, appended to the collection in one [save]: the seven fields
    as sent, [status] "pending" and [userId] the authenticated user's,
    under a fresh identifier and with the creation time; the 201
    response carries that record.  Whatever [status] and [userId] the
    body itself holds makes no difference. *)
Theorem create_success :
  forall (H : Host) (user : Identity) (body : Body.t) (now : Z) (db : Db),
    missing_field body = false ->
    invalid_email body = false ->
    invalid_phone body = false ->
    past_date H now body = false ->
    exists a,
      create H user body now db
      = (Return (Res.send 201
                   (Res.MessageAppointment "Appointment booked successfully Thank you!" a)),
         {| users := users db; appointments := (appointments db ++ [a])%list;
            next_id := N.succ (next_id db) |})
      /\ a = booked (userId user) body (next_id db) now
      /\ Appointment.status a = Some "pending"
      /\ Appointment.userId a = Some (userId user)
      /\ Appointment._id a = next_id db
      /\ Appointment.createdAt a = now
      /\ forall st uid,
           create H user (with_status_userId body st uid) now db
           = create H user body now db.
Proof.
  intros H user body now db Hm He Hp Hd.
  exists (booked (userId user) body (next_id db) now).
  rewrite create_cases, first_failure_cases, Hm, He, Hp, Hd. cbv zeta.
  repeat split.
  intros st uid. rewrite create_cases, first_failure_cases.
  unfold with_status_userId, missing_field, invalid_email, invalid_phone, past_date in *.
  cbn [Body.name Body.email Body.phone Body.date Body.time Body.astrologer
       Body.consultationType] in *.
  rewrite Hm, He, Hp, Hd. reflexivity.
Qed.

Lemma create_success_witness :
  exists a,
    create Demo.host Demo.as_alice (Demo.booking "2025-03-10") Demo.noon Demo.db2
    = (Return (Res.send 201
                 (Res.MessageAppointment "Appointment booked successfully Thank you!" a)),
       {| users := users Demo.db2; appointments := (appointments Demo.db2 ++ [a])%list;
          next_id := 4%N |})
    /\ Appointment.status a = Some "pending"
    /\ Appointment.userId a = Some 0%N.
Proof.
  destruct (create_success Demo.host Demo.as_alice (Demo.booking "2025-03-10")
              Demo.noon Demo.db2 eq_refl eq_refl eq_refl eq_refl)
    as [a [E [_ [Hs [Hu _]]]]].
  exists a. repeat split; assumption.
Defined.

(** The date gate on instants.  For a request that passes the first
    three gates, the answer is "Please select a future date" exactly
    when the requested date parses and, both instants being taken back
    to midnight on the server's clock, falls before today.  An instant
    anywhere in the server's yesterday is rejected; an instant anywhere
    in its today is booked. *)
Lemma create_date_gate :
  forall (H : Host) (user : Identity) (body : Body.t) (now : Z) (db : Db),
    missing_field body = false ->
    invalid_email body = false ->
    invalid_phone body = false ->
    (create H user body now db = (Return (rejection PastDate), db)
     <-> exists t, Date_parse H (str (Body.date body)) = Some t
                   /\ (setHours_0 (timezone_offset H) t
                       < setHours_0 (timezone_offset H) now)%Z)
    /\ (forall t, Date_parse H (str (Body.date body)) = Some t ->
          local_day (timezone_offset H) t = (local_day (timezone_offset H) now - 1)%Z ->
          create H user body now db = (Return (rejection PastDate), db))
    /\ (forall t, Date_parse H (str (Body.date body)) = Some t ->
          local_day (timezone_offset H) t = local_day (timezone_offset H) now ->
          create H user body now db
          = (Return (Res.send 201
                       (Res.MessageAppointment "Appointment booked successfully Thank you!"
                          (booked (userId user) body (next_id db) now))),
             {| users := users db;
                appointments := (appointments db
                                 ++ [booked (userId user) body (next_id db) now])%list;
                next_id := N.succ (next_id db) |})).
Proof.
  intros H user body now db Hm He Hp.
  rewrite create_cases, first_failure_cases, Hm, He, Hp.
  unfold past_date. repeat split.
  - destruct (Date_parse H (str (Body.date body))) as [t|]; [|discriminate].
    destruct (Z.ltb_spec (local_day (timezone_offset H) t)
                         (local_day (timezone_offset H) now)) as [Hlt | Hge].
    + intros _. exists t. split; [reflexivity|]. now apply normalized_order.
    + intros E. inversion E.
  - intros [t [Ht Hlt]]. rewrite Ht. apply normalized_order in Hlt.
    apply Z.ltb_lt in Hlt. rewrite Hlt. reflexivity.
  - intros t Ht Hy. rewrite Ht.
    replace (local_day (timezone_offset H) t <? local_day (timezone_offset H) now)%Z
      with true by (symmetry; apply Z.ltb_lt; lia).
    reflexivity.
  - intros t Ht Hy. rewrite Ht, Hy, Z.ltb_irrefl. reflexivity.
Qed.

Lemma create_date_gate_on_demo_host :
  create Demo.host Demo.as_alice (Demo.booking "2025-03-09") Demo.noon Demo.db2
    = (Return (rejection PastDate), Demo.db2)
  /\ fst (create Demo.host Demo.as_alice (Demo.booking "2025-03-10") Demo.noon Demo.db2)
     = Return (Res.send 201
                 (Res.MessageAppointment "Appointment booked successfully Thank you!"
                    (booked 0%N (Demo.booking "2025-03-10") 3%N Demo.noon))).
Proof.
  split.
  - destruct (create_date_gate Demo.host Demo.as_alice (Demo.booking "2025-03-09")
                Demo.noon Demo.db2 eq_refl eq_refl eq_refl) as [_ [Hy _]].
    exact (Hy 1741478400000%Z eq_refl eq_refl).
  - destruct (create_date_gate Demo.host Demo.as_alice (Demo.booking "2025-03-10")
                Demo.noon Demo.db2 eq_refl eq_refl eq_refl) as [_ [_ Ht]].
    rewrite (Ht 1741564800000%Z eq_refl eq_refl). reflexivity.
Defined.

(** The local day of UTC midnight of a day: that day east of UTC and at
    UTC, the day before west of UTC. *)
Lemma local_day_of_utc_midnight : forall offset day : Z,
  ((0 <= offset < DAY_MS)%Z -> local_day offset (day * DAY_MS) = day)
  /\ ((- DAY_MS <= offset < 0)%Z -> local_day offset (day * DAY_MS) = (day - 1)%Z).
Proof.
  intros offset day. unfold local_day. pose proof DAY_MS_pos as Hpos.
  split; intros Hoff.
  - rewrite Z.add_comm, Z.div_add by lia. rewrite Z.div_small by lia. lia.
  - replace (day * DAY_MS + offset)%Z with ((offset + DAY_MS) + (day - 1) * DAY_MS)%Z
      by lia.
    rewrite Z.div_add by lia. rewrite Z.div_small by lia. lia.
Qed.

(** C2, on the code.  The claim is that a request whose date is today
    succeeds, in whatever form the date is written.  The handler
    compares the instant [new Date(date)] with the start of the server's
    local day.  Text that gives the date alone is read as midnight UTC
    of that day -- the form an HTML date input sends.  On a server whose
    clock is west of UTC that instant lies in the evening before, on the
    server's clock, so today's date is answered "Please select a future
    date" there, all day long; at UTC and east of it the same request is
    booked. *)
Theorem todays_date_rejected_west_of_utc :
  forall (H : Host) (user : Identity) (body : Body.t) (now : Z) (db : Db),
    missing_field body = false ->
    invalid_email body = false ->
    invalid_phone body = false ->
    date_only_text H (str (Body.date body)) (local_day (timezone_offset H) now) ->
    ((- DAY_MS <= timezone_offset H < 0)%Z ->
       create H user body now db = (Return (rejection PastDate), db))
    /\ ((0 <= timezone_offset H < DAY_MS)%Z ->
        create H user body now db
        = (Return (Res.send 201
                     (Res.MessageAppointment "Appointment booked successfully Thank you!"
                        (booked (userId user) body (next_id db) now))),
           {| users := users db;
              appointments := (appointments db
                               ++ [booked (userId user) body (next_id db) now])%list;
              next_id := N.succ (next_id db) |})).
Proof.
  intros H user body now db Hm He Hp Htoday.
  unfold date_only_text in Htoday.
  rewrite create_cases, first_failure_cases, Hm, He, Hp.
  unfold past_date. rewrite Htoday.
  destruct (local_day_of_utc_midnight (timezone_offset H)
              (local_day (timezone_offset H) now)) as [Heast Hwest].
  split; intros Hoff.
  - rewrite (Hwest Hoff).
    replace (local_day (timezone_offset H) now - 1
             <? local_day (timezone_offset H) now)%Z
      with true by (symmetry; apply Z.ltb_lt; lia).
    reflexivity.
  - rewrite (Heast Hoff), Z.ltb_irrefl. reflexivity.
Qed.

(** On 10 March 2025 at 12:00 UTC it is 07:00 on a clock five hours
    west of UTC and 17:30 on one five and a half hours east; the request
    is for 10 March. *)
Lemma todays_date_rejected_west_of_utc_witness :
  local_day (timezone_offset Demo.host_west) Demo.noon
  = local_day (timezone_offset Demo.host) Demo.noon
  /\ date_only_text Demo.host_west "2025-03-10"
       (local_day (timezone_offset Demo.host_west) Demo.noon)
  /\ create Demo.host_west Demo.as_alice (Demo.booking "2025-03-10") Demo.noon Demo.db2
     = (Return (rejection PastDate), Demo.db2)
  /\ fst (create Demo.host Demo.as_alice (Demo.booking "2025-03-10") Demo.noon Demo.db2)
     = Return (Res.send 201
                 (Res.MessageAppointment "Appointment booked successfully Thank you!"
                    (booked 0%N (Demo.booking "2025-03-10") 3%N Demo.noon))).
Proof.
  split; [reflexivity|]. split; [reflexivity|]. split.
  - destruct (todays_date_rejected_west_of_utc Demo.host_west Demo.as_alice
                (Demo.booking "2025-03-10") Demo.noon Demo.db2
                eq_refl eq_refl eq_refl eq_refl) as [Hwest _].
    apply Hwest. vm_compute. split; [discriminate|reflexivity].
  - destruct (todays_date_rejected_west_of_utc Demo.host Demo.as_alice
                (Demo.booking "2025-03-10") Demo.noon Demo.db2
                eq_refl eq_refl eq_refl eq_refl) as [_ Heast].
    rewrite Heast; [reflexivity|]. vm_compute. split; [discriminate|reflexivity].
Defined.

(** The same request evaluated, with the instants spelt out. *)
Example date_only_text_west_of_utc :
  Demo.parse_date "2025-03-10" = Some 1741564800000%Z
  /\ local_day (timezone_offset Demo.host) 1741564800000
     = local_day (timezone_offset Demo.host) Demo.noon
  /\ local_day (timezone_offset Demo.host_west) 1741564800000
     = (local_day (timezone_offset Demo.host_west) Demo.noon - 1)%Z
  /\ create Demo.host_west Demo.as_alice (Demo.booking "2025-03-10") Demo.noon Demo.db2
     = (Return (rejection PastDate), Demo.db2).
Proof. repeat split. Qed.

(* ------------------------------------------------------------------ *)
(** ** Ownership-scoped lookup *)

Section FirstMatch.

Variable filter : Appointment.t -> bool.

Lemma findOneAndUpdate_none : forall update docs,
  (forall d, In d docs -> filter d = false) ->
  Appointment.findOneAndUpdate filter update docs = (None, docs).
Proof.
  intros update docs. induction docs as [|d rest IH]; simpl; intros Hno.
  - reflexivity.
  - rewrite (Hno d (or_introl eq_refl)), IH; [reflexivity|].
    intros x Hx. apply Hno. now right.
Qed.

Lemma findOneAndUpdate_first : forall update before a after,
  (forall d, In d before -> filter d = false) ->
  filter a = true ->
  Appointment.findOneAndUpdate filter update (before ++ a :: after)%list
  = (Some (update a), (before ++ update a :: after)%list).
Proof.
  intros update before a after. induction before as [|d rest IH]; simpl; intros Hno Ha.
  - rewrite Ha. reflexivity.
  - rewrite (Hno d (or_introl eq_refl)), IH; [reflexivity| |exact Ha].
    intros x Hx. apply Hno. now right.
Qed.

Lemma findOneAndDelete_none : forall docs,
  (forall d, In d docs -> filter d = false) ->
  Appointment.findOneAndDelete filter docs = (None, docs).
Proof.
  intros docs. induction docs as [|d rest IH]; simpl; intros Hno.
  - reflexivity.
  - rewrite (Hno d (or_introl eq_refl)), IH; [reflexivity|].
    intros x Hx. apply Hno. now right.
Qed.

Lemma findOneAndDelete_first : forall before a after,
  (forall d, In d before -> filter d = false) ->
  filter a = true ->
  Appointment.findOneAndDelete filter (before ++ a :: after)%list
  = (Some a, (before ++ after)%list).
Proof.
  intros before a after. induction before as [|d rest IH]; simpl; intros Hno Ha.
  - rewrite Ha. reflexivity.
  - rewrite (Hno d (or_introl eq_refl)), IH; [reflexivity| |exact Ha].
    intros x Hx. apply Hno. now right.
Qed.

Lemma first_match : forall docs,
  (exists a, In a docs /\ filter a = true) ->
  exists before a after,
    docs = (before ++ a :: after)%list
    /\ filter a = true
    /\ (forall d, In d before -> filter d = false).
Proof.
  intros docs. induction docs as [|d rest IH]; intros [a [Hin Ha]].
  - destruct Hin.
  - destruct (filter d) eqn:Hd.
    + exists [], d, rest. repeat split; auto. intros x [].
    + destruct Hin as [E | Hin]; [subst; congruence|].
      destruct (IH (ex_intro _ a (conj Hin Ha))) as [before [b [after [E [Hb Hno]]]]].
      exists (d :: before), b, after. subst rest. repeat split; auto.
      intros x [Ex | Hx]; [now subst|auto].
Qed.

End FirstMatch.

Lemma update_status_miss : forall (user : Identity) (id : ObjectId) (s : string) (db : Db),
  (forall d, In d (appointments db) ->
     Appointment.by_id_and_owner id (userId user) d = false) ->
  update_status user id s db = (Return not_found, db).
Proof.
  intros user id s db Hno. unfold update_status, try_catch_M, bind, on_appointments.
  rewrite findOneAndUpdate_none by exact Hno. cbn. now rewrite same_db.
Qed.

Lemma update_status_hit : forall (user : Identity) (id : ObjectId) (s : string) (db : Db)
    before a after,
  appointments db = (before ++ a :: after)%list ->
  (forall d, In d before -> Appointment.by_id_and_owner id (userId user) d = false) ->
  Appointment.by_id_and_owner id (userId user) a = true ->
  update_status user id s db
  = (Return (Res.send 200
               (Res.MessageAppointment "Appointment updated successfully"
                  (Appointment.set_status s a))),
     {| users := users db;
        appointments := (before ++ Appointment.set_status s a :: after)%list;
        next_id := next_id db |}).
Proof.
  intros user id s db before a after E Hno Ha.
  unfold update_status, try_catch_M, bind, on_appointments.
  rewrite E, findOneAndUpdate_first by assumption. reflexivity.
Qed.

Lemma cancel_miss : forall (user : Identity) (id : ObjectId) (db : Db),
  (forall d, In d (appointments db) ->
     Appointment.by_id_and_owner id (userId user) d = false) ->
  cancel user id db = (Return not_found, db).
Proof.
  intros user id db Hno. unfold cancel, try_catch_M, bind, on_appointments.
  rewrite findOneAndDelete_none by exact Hno. cbn. now rewrite same_db.
Qed.

Lemma cancel_hit : forall (user : Identity) (id : ObjectId) (db : Db) before a after,
  appointments db = (before ++ a :: after)%list ->
  (forall d, In d before -> Appointment.by_id_and_owner id (userId user) d = false) ->
  Appointment.by_id_and_owner id (userId user) a = true ->
  cancel user id db
  = (Return (Res.send 200 (Res.Message "Appointment cancelled successfully")),
     {| users := users db; appointments := (before ++ after)%list;
        next_id := next_id db |}).
Proof.
  intros user id db before a after E Hno Ha.
  unfold cancel, try_catch_M, bind, on_appointments.
  rewrite E, findOneAndDelete_first by assumption. reflexivity.
Qed.

Lemma set_status_same_but_status : forall (s : string) (a : Appointment.t),
  same_but_status a (Appointment.set_status s a).
Proof. intros s a. repeat split. Qed.

(** C5.  For every owner, identifier and status text: if some stored
    appointment matches both the identifier and the owner, the first
    such record has its [status] overwritten with the text as given --
    no value is refused -- every other field of it and every other
    record stay as they were, and the 200 response carries the record
    as updated; if none matches, the answer is 404 "Appointment not
    found" and nothing changes. *)
Theorem update_status_contract :
  forall (user : Identity) (id : ObjectId) (s : string) (db : Db),
    ((exists a, In a (appointments db)
                /\ Appointment.by_id_and_owner id (userId user) a = true) ->
     exists before a after a',
       appointments db = (before ++ a :: after)%list
       /\ Appointment.by_id_and_owner id (userId user) a = true
       /\ (forall d, In d before ->
             Appointment.by_id_and_owner id (userId user) d = false)
       /\ update_status user id s db
          = (Return (Res.send 200
                       (Res.MessageAppointment "Appointment updated successfully" a')),
             {| users := users db; appointments := (before ++ a' :: after)%list;
                next_id := next_id db |})
       /\ Appointment.status a' = Some s
       /\ same_but_status a a')
    /\ ((forall a, In a (appointments db) ->
           Appointment.by_id_and_owner id (userId user) a = false) ->
        update_status user id s db = (Return not_found, db)
        /\ Res.status not_found = 404%Z).
Proof.
  intros user id s db. split.
  - intros Hex. apply first_match in Hex.
    destruct Hex as [before [a [after [E [Ha Hno]]]]].
    exists before, a, after, (Appointment.set_status s a).
    repeat split; auto.
    apply update_status_hit; assumption.
  - intros Hno. split; [|reflexivity]. now apply update_status_miss.
Qed.

Lemma foreign_lookup_misses : forall (db : Db) (a : Appointment.t) (A B : ObjectId),
  unique_appointment_ids db ->
  In a (appointments db) ->
  Appointment.userId a = Some A ->
  A <> B ->
  forall d, In d (appointments db) ->
    Appointment.by_id_and_owner (Appointment._id a) B d = false.
Proof.
  intros db a A B Hnd Hin Howner Hneq d Hd. unfold Appointment.by_id_and_owner.
  destruct (N.eqb_spec (Appointment._id d) (Appointment._id a)) as [E | _];
    [|reflexivity].
  assert (d = a) by (apply (unique_by_key _ _ Appointment._id (appointments db)); auto).
  subst d. rewrite Howner. cbn. now apply N.eqb_neq.
Qed.

Lemma unknown_id_misses : forall (db : Db) (id owner : ObjectId),
  ~ In id (map Appointment._id (appointments db)) ->
  forall d, In d (appointments db) -> Appointment.by_id_and_owner id owner d = false.
Proof.
  intros db id owner Hno d Hd. unfold Appointment.by_id_and_owner.
  destruct (N.eqb_spec (Appointment._id d) id) as [E | _]; [|reflexivity].
  exfalso. apply Hno. rewrite <- E. now apply in_map.
Qed.

Lemma own_lookup_hits : forall (db : Db) (a : Appointment.t) (A : ObjectId),
  unique_appointment_ids db ->
  In a (appointments db) ->
  Appointment.userId a = Some A ->
  exists before after,
    appointments db = (before ++ a :: after)%list
    /\ Appointment.by_id_and_owner (Appointment._id a) A a = true
    /\ (forall d, In d before ->
          Appointment.by_id_and_owner (Appointment._id a) A d = false)
    /\ ~ In a (before ++ after)%list.
Proof.
  intros db a A Hnd Hin Howner.
  assert (Ha : Appointment.by_id_and_owner (Appointment._id a) A a = true).
  { unfold Appointment.by_id_and_owner. rewrite Howner, !N.eqb_refl. reflexivity. }
  destruct (in_split _ _ Hin) as [before [after E]].
  exists before, after. unfold unique_appointment_ids in Hnd.
  rewrite E, map_app in Hnd. cbn [map] in Hnd.
  pose proof (NoDup_remove_2 _ _ _ Hnd) as Hfresh.
  repeat split; auto.
  - intros d Hd. unfold Appointment.by_id_and_owner.
    destruct (N.eqb_spec (Appointment._id d) (Appointment._id a)) as [Eid | _];
      [|reflexivity].
    exfalso. apply Hfresh. rewrite <- Eid. apply in_or_app. left. now apply in_map.
  - intros Hin'. apply Hfresh. rewrite <- map_app. now apply in_map.
Qed.

(** C3.  Over a collection with unique identifiers, for an appointment
    owned by A and a user B other than A: B's status update and B's
    cancel on its identifier are answered 404 "Appointment not found"
    and leave the collections as they were, which is also the answer for
    an identifier that no appointment has; A's status update and A's
    cancel on the same identifier are answered 200, the record updated,
    respectively gone. *)
Theorem ownership_scoped_mutation :
  forall (db : Db) (a : Appointment.t) (A B : Identity) (s : string),
    unique_appointment_ids db ->
    In a (appointments db) ->
    Appointment.userId a = Some (userId A) ->
    userId A <> userId B ->
    update_status B (Appointment._id a) s db = (Return not_found, db)
    /\ cancel B (Appointment._id a) db = (Return not_found, db)
    /\ (forall id, ~ In id (map Appointment._id (appointments db)) ->
          update_status B id s db = (Return not_found, db)
          /\ cancel B id db = (Return not_found, db))
    /\ (exists db',
          update_status A (Appointment._id a) s db
          = (Return (Res.send 200
                       (Res.MessageAppointment "Appointment updated successfully"
                          (Appointment.set_status s a))), db')
          /\ In (Appointment.set_status s a) (appointments db'))
    /\ (exists db',
          cancel A (Appointment._id a) db
          = (Return (Res.send 200 (Res.Message "Appointment cancelled successfully")), db')
          /\ ~ In a (appointments db')).
Proof.
  intros db a A B s Hnd Hin Howner Hneq.
  pose proof (foreign_lookup_misses db a (userId A) (userId B) Hnd Hin Howner Hneq)
    as Hforeign.
  destruct (own_lookup_hits db a (userId A) Hnd Hin Howner)
    as [before [after [E [Ha [Hno Hgone]]]]].
  split; [now apply update_status_miss|].
  split; [now apply cancel_miss|].
  split; [|split].
  - intros id Hid. pose proof (unknown_id_misses db id (userId B) Hid) as Hunknown.
    split; [now apply update_status_miss|now apply cancel_miss].
  - eexists. split; [apply (update_status_hit A _ s db before a after); assumption|].
    cbn [appointments]. apply in_or_app. right. now left.
  - eexists. split; [apply (cancel_hit A _ db before a after); assumption|].
    exact Hgone.
Qed.

Lemma ownership_scoped_mutation_witness :
  update_status Demo.as_bob 2%N "confirmed" Demo.db2 = (Return not_found, Demo.db2)
  /\ cancel Demo.as_bob 2%N Demo.db2 = (Return not_found, Demo.db2)
  /\ fst (update_status Demo.as_alice 2%N "confirmed" Demo.db2)
     = Return (Res.send 200
                 (Res.MessageAppointment "Appointment updated successfully"
                    (Appointment.set_status "confirmed" Demo.alices_booking)))
  /\ fst (cancel Demo.as_alice 2%N Demo.db2)
     = Return (Res.send 200 (Res.Message "Appointment cancelled successfully")).
Proof.
  assert (Hnd : unique_appointment_ids Demo.db2).
  { unfold unique_appointment_ids. cbn. repeat constructor. intros []. }
  assert (Hneq : userId Demo.as_alice <> userId Demo.as_bob) by discriminate.
  destruct (ownership_scoped_mutation Demo.db2 Demo.alices_booking
              Demo.as_alice Demo.as_bob "confirmed" Hnd (or_introl eq_refl) eq_refl Hneq)
    as [Hu [Hc [_ [[db1 [E1 _]] [db2' [E2 _]]]]]].
  split; [exact Hu|]. split; [exact Hc|].
  split.
  - change 2%N with (Appointment._id Demo.alices_booking). rewrite E1. reflexivity.
  - change 2%N with (Appointment._id Demo.alices_booking). rewrite E2. reflexivity.
Defined.

(* ------------------------------------------------------------------ *)
(** ** Invariants of the reachable states *)

Lemma signup_frame : forall (H : Host) (env : process_env) (body : SignupBody.t)
    (salt : string) (now : Z) (db : Db),
  appointments (snd (signup H env body salt now db)) = appointments db
  /\ (next_id db <= next_id (snd (signup H env body salt now db)))%N.
Proof.
  intros H env body salt now db. destruct (complete body) eqn:Hc.
  - rewrite signup_complete by exact Hc.
    destruct (User.findOne _ (users db)); cbn; split; try reflexivity; lia.
  - rewrite signup_incomplete by exact Hc. cbn. split; [reflexivity|lia].
Qed.

Lemma update_keeps_ids : forall filter (s : string) (docs : list Appointment.t),
  map Appointment._id
    (snd (Appointment.findOneAndUpdate filter (Appointment.set_status s) docs))
  = map Appointment._id docs.
Proof.
  intros filter s docs. induction docs as [|d rest IH]; [reflexivity|].
  cbn [Appointment.findOneAndUpdate]. destruct (filter d); [reflexivity|].
  destruct (Appointment.findOneAndUpdate filter (Appointment.set_status s) rest)
    as [found rest'].
  cbn [snd map] in *. now rewrite IH.
Qed.

Lemma delete_keeps_rest : forall filter (docs : list Appointment.t) (i : ObjectId),
  In i (map Appointment._id (snd (Appointment.findOneAndDelete filter docs))) ->
  In i (map Appointment._id docs).
Proof.
  intros filter docs i. induction docs as [|d rest IH]; [auto|].
  cbn [Appointment.findOneAndDelete]. destruct (filter d).
  - cbn. auto.
  - destruct (Appointment.findOneAndDelete filter rest) as [found rest'].
    cbn [snd map] in *. intros [E | Hin]; [now left|right; auto].
Qed.

Lemma delete_keeps_NoDup : forall filter (docs : list Appointment.t),
  NoDup (map Appointment._id docs) ->
  NoDup (map Appointment._id (snd (Appointment.findOneAndDelete filter docs))).
Proof.
  intros filter docs. induction docs as [|d rest IH]; [auto|].
  cbn [map]. intros Hnd. inversion Hnd as [|? ? Hnotin Hnd']; subst.
  cbn [Appointment.findOneAndDelete]. destruct (filter d); [exact Hnd'|].
  pose proof (delete_keeps_rest filter rest (Appointment._id d)) as Hsub.
  destruct (Appointment.findOneAndDelete filter rest) as [found rest'].
  cbn [snd map] in *. constructor; auto.
Qed.

Lemma update_status_db : forall (user : Identity) (id : ObjectId) (s : string) (db : Db),
  snd (update_status user id s db)
  = {| users := users db;
       appointments :=
         snd (Appointment.findOneAndUpdate
                (Appointment.by_id_and_owner id (userId user))
                (Appointment.set_status s) (appointments db));
       next_id := next_id db |}.
Proof.
  intros user id s db. unfold update_status, try_catch_M, bind, on_appointments.
  destruct (Appointment.findOneAndUpdate _ _ (appointments db)) as [[a|] docs];
    reflexivity.
Qed.

Lemma cancel_db : forall (user : Identity) (id : ObjectId) (db : Db),
  snd (cancel user id db)
  = {| users := users db;
       appointments :=
         snd (Appointment.findOneAndDelete
                (Appointment.by_id_and_owner id (userId user)) (appointments db));
       next_id := next_id db |}.
Proof.
  intros user id db. unfold cancel, try_catch_M, bind, on_appointments.
  destruct (Appointment.findOneAndDelete _ (appointments db)) as [[a|] docs];
    reflexivity.
Qed.

Lemma protected_preserves : forall (P : Db -> Prop) (H : Host) (env : process_env)
    (handler : Identity -> M Res.t) (authorization : Js.value) (now : Z) (db : Db),
  P db ->
  (forall user, P (snd (handler user db))) ->
  P (snd (protected H env handler authorization now db)).
Proof.
  intros P H env handler authorization now db Hdb Hh. unfold protected.
  destruct (auth H env authorization now); [apply Hh|exact Hdb].
Qed.

Lemma create_preserves_ok : forall (H : Host) (user : Identity) (body : Body.t)
    (now : Z) (db : Db),
  db_ok db -> db_ok (snd (create H user body now db)).
Proof.
  intros H user body now db [Hu [Hids Hbound]]. rewrite create_cases.
  destruct (first_failure H now body); [exact (conj Hu (conj Hids Hbound))|].
  cbv zeta. unfold db_ok, unique_users, unique_appointment_ids in *.
  cbn [snd users appointments next_id]. rewrite map_app. cbn [map booked Appointment._id].
  split; [exact Hu|]. split.
  - apply NoDup_snoc; [exact Hids|].
    intros Hin. rewrite Forall_forall in Hbound. specialize (Hbound _ Hin). lia.
  - apply Forall_app. split.
    + eapply Forall_impl; [|exact Hbound]. cbn. intros i Hi. lia.
    + constructor; [lia|constructor].
Qed.

Lemma serve_preserves_ok : forall (H : Host) (env : process_env) (r : request)
    (now : Z) (db : Db),
  db_ok db -> db_ok (snd (serve H env r now db)).
Proof.
  intros H env r now db Hok. destruct r as [body salt | body | az body | az id s | az id];
    cbn [serve].
  - destruct Hok as [Hu [Hids Hbound]].
    pose proof (signup_preserves_unique_users H env body salt now db Hu) as Hu'.
    destruct (signup_frame H env body salt now db) as [Ha Hn].
    unfold db_ok, unique_appointment_ids. rewrite Ha.
    repeat split; auto.
    + apply Hu'.
    + apply Hu'.
    + eapply Forall_impl; [|exact Hbound]. cbn. intros i Hi. lia.
  - now rewrite login_reads_only.
  - apply protected_preserves; [exact Hok|].
    intros user. now apply create_preserves_ok.
  - apply protected_preserves; [exact Hok|].
    intros user. rewrite update_status_db.
    destruct Hok as [Hu [Hids Hbound]].
    unfold db_ok, unique_users, unique_appointment_ids in *.
    cbn [users appointments next_id]. rewrite update_keeps_ids. auto.
  - apply protected_preserves; [exact Hok|].
    intros user. rewrite cancel_db.
    destruct Hok as [Hu [Hids Hbound]].
    unfold db_ok, unique_users, unique_appointment_ids in *.
    cbn [users appointments next_id].
    split; [exact Hu|]. split; [now apply delete_keeps_NoDup|].
    rewrite Forall_forall in *. intros i Hi. apply Hbound.
    eapply delete_keeps_rest. exact Hi.
Qed.

(** X16.  Every state the server can reach from the empty database has
    unique usernames, unique emails and unique appointment identifiers:
    the hypotheses of the statements above hold wherever they matter. *)
Theorem reachable_db_ok : forall (H : Host) (env : process_env) (db : Db),
  reachable H env db -> db_ok db.
Proof.
  intros H env db Hr. induction Hr as [|db r now Hr IH].
  - repeat split; cbn; constructor.
  - now apply serve_preserves_ok.
Qed.

(** A status no enumeration would list is stored as given. *)
Example update_status_free_form :
  update_status Demo.as_alice 2%N "whatever, really" Demo.db2
  = (Return (Res.send 200
               (Res.MessageAppointment "Appointment updated successfully"
                  (Appointment.set_status "whatever, really" Demo.alices_booking))),
     {| users := users Demo.db2;
        appointments := [Appointment.set_status "whatever, really" Demo.alices_booking];
        next_id := 3%N |})
  /\ update_status Demo.as_alice 7%N "confirmed" Demo.db2 = (Return not_found, Demo.db2).
Proof. split; reflexivity. Qed.

(* ------------------------------------------------------------------ *)
(** * Further properties of the two files *)

(** ** The patterns *)

Lemma append_empty_r : forall s : string, s ++ "" = s.
Proof.
  intros s. induction s as [|c rest IH]; simpl; [reflexivity|now rewrite IH].
Qed.

Lemma append_is_empty : forall s t : string, s ++ t = "" -> s = "" /\ t = "".
Proof.
  intros [|c s] t E; simpl in E; [auto|discriminate].
Qed.

Lemma nullable_matches : forall r : Regex.re,
  Regex.nullable r = true <-> matches r "".
Proof.
  intros r. split.
  - induction r as [ | | p | a IHa b IHb | a IHa b IHb | a IHa]; simpl; intros Hn;
      try discriminate.
    + constructor.
    + apply andb_true_iff in Hn. destruct Hn as [Ha Hb].
      change "" with ("" ++ ""). constructor; auto.
    + apply orb_true_iff in Hn. destruct Hn as [Ha | Hb];
        [apply matches_alt_l | apply matches_alt_r]; auto.
    + constructor.
  - intros Hm. remember "" as e eqn:He.
    induction Hm as [ | p c Hp | a b s t Ha IHa Hb IHb | a b s Ha IHa | a b s Hb IHb
                     | a | a s t Ha IHa Hs IHs]; simpl; auto.
    + discriminate.
    + apply append_is_empty in He. destruct He. rewrite IHa, IHb; auto.
    + rewrite IHa; auto.
    + rewrite IHb; auto. apply orb_true_r.
Qed.

Lemma matches_deriv : forall (r : Regex.re) (c : ascii) (s : string),
  matches (Regex.deriv c r) s -> matches r (String c s).
Proof.
  intros r c. induction r as [ | | p | a IHa b IHb | a IHa b IHb | a IHa];
    simpl; intros s Hm.
  - inversion Hm.
  - inversion Hm.
  - destruct (p c) eqn:Hp; inversion Hm; subst. now constructor.
  - destruct (Regex.nullable a) eqn:Hn.
    + inversion Hm as [ | | | ? ? ? Hl | ? ? ? Hr | | ]; subst.
      * inversion Hl as [ | | ? ? u v Hu Hv | | | | ]; subst.
        change (String c (u ++ v)) with (String c u ++ v). constructor; auto.
      * change (String c s) with ("" ++ String c s). constructor; auto.
        now apply nullable_matches.
    + inversion Hm as [ | | ? ? u v Hu Hv | | | | ]; subst.
      change (String c (u ++ v)) with (String c u ++ v). constructor; auto.
  - inversion Hm; subst; [apply matches_alt_l | apply matches_alt_r]; auto.
  - inversion Hm as [ | | ? ? u v Hu Hv | | | | ]; subst.
    change (String c (u ++ v)) with (String c u ++ v). constructor; auto.
Qed.

Lemma deriv_matches : forall (r : Regex.re) (w : string),
  matches r w ->
  forall (c : ascii) (s : string), w = String c s -> matches (Regex.deriv c r) s.
Proof.
  intros r w Hm.
  induction Hm as [ | p x Hp | a b u v Ha IHa Hb IHb | a b u Ha IHa | a b u Hb IHb
                   | a | a u v Ha IHa Hs IHs]; intros c s E; simpl.
  - discriminate.
  - inversion E; subst. rewrite Hp. constructor.
  - destruct u as [|x u'].
    + simpl in E. subst v.
      assert (Hn : Regex.nullable a = true) by now apply nullable_matches.
      rewrite Hn. apply matches_alt_r. now apply IHb.
    + simpl in E. inversion E; subst.
      assert (Hd : matches (Regex.Cat (Regex.deriv c a) b) (u' ++ v))
        by (constructor; auto).
      destruct (Regex.nullable a); [now apply matches_alt_l|exact Hd].
  - apply matches_alt_l. now apply IHa.
  - apply matches_alt_r. now apply IHb.
  - discriminate.
  - destruct u as [|x u'].
    + simpl in E. now apply IHs.
    + simpl in E. inversion E; subst. constructor; auto.
Qed.

Lemma test_matches : forall (s : string) (r : Regex.re),
  Regex.test r s = true <-> matches r s.
Proof.
  intros s. induction s as [|c rest IH]; intros r; simpl.
  - apply nullable_matches.
  - rewrite IH. split.
    + apply matches_deriv.
    + intros Hm. now apply (deriv_matches r (String c rest)).
Qed.

Lemma all_chars_append : forall (p : ascii -> bool) (s t : string),
  all_chars p (s ++ t) = all_chars p s && all_chars p t.
Proof.
  intros p s t. induction s as [|c rest IH]; simpl; [reflexivity|].
  now rewrite IH, andb_assoc.
Qed.

Lemma matches_class_inv : forall (p : ascii -> bool) (s : string),
  matches (Regex.Class p) s -> exists c, s = String c "" /\ p c = true.
Proof.
  intros p s Hm. inversion Hm as [ | q c Hc | | | | | ]; subst. eauto.
Qed.

Lemma matches_star_class : forall (p : ascii -> bool) (s : string),
  matches (Regex.Star (Regex.Class p)) s <-> all_chars p s = true.
Proof.
  intros p s. split.
  - intros Hm. remember (Regex.Star (Regex.Class p)) as r eqn:Hr.
    induction Hm as [ | | | | | a | a u v Ha IHa Hs IHs]; try discriminate.
    + reflexivity.
    + inversion Hr; subst a. apply matches_class_inv in Ha.
      destruct Ha as [c [-> Hc]]. simpl. rewrite Hc. now apply IHs.
  - induction s as [|c rest IH]; simpl; intros Hall.
    + constructor.
    + apply andb_true_iff in Hall. destruct Hall as [Hc Hrest].
      change (String c rest) with (String c "" ++ rest).
      constructor; [now constructor|auto].
Qed.

Lemma matches_plus_class : forall (p : ascii -> bool) (s : string),
  matches (Regex.Plus (Regex.Class p)) s <-> s <> "" /\ all_chars p s = true.
Proof.
  intros p s. unfold Regex.Plus. split.
  - intros Hm. inversion Hm as [ | | ? ? u v Hu Hv | | | | ]; subst.
    apply matches_class_inv in Hu. destruct Hu as [c [-> Hc]].
    apply matches_star_class in Hv.
    simpl. split; [discriminate|]. now rewrite Hc, Hv.
  - intros [Hne Hall]. destruct s as [|c rest]; [congruence|].
    simpl in Hall. apply andb_true_iff in Hall. destruct Hall as [Hc Hrest].
    change (String c rest) with (String c "" ++ rest).
    constructor; [now constructor|now apply matches_star_class].
Qed.

Lemma matches_lit : forall (c : ascii) (s : string),
  matches (Regex.Lit c) s <-> s = String c "".
Proof.
  intros c s. unfold Regex.Lit. split.
  - intros Hm. apply matches_class_inv in Hm. destruct Hm as [x [-> Hx]].
    apply Ascii.eqb_eq in Hx. now subst.
  - intros ->. constructor. apply Ascii.eqb_refl.
Qed.

(** X1.  The email pattern accepts exactly the texts of the form
    [local@domain.tld] in which each of the three parts is non-empty and
    free of white space and of [@]; so an accepted email holds one [@]
    and a dot somewhere after it. *)
Theorem emailRegex_shape : forall s : string,
  Regex.test emailRegex s = true
  <-> exists l d t, s = l ++ "@" ++ d ++ "." ++ t /\ word l /\ word d /\ word t.
Proof.
  intros s. rewrite test_matches. unfold emailRegex, word. split.
  - intros Hm.
    inversion Hm as [ | | ? ? l r1 Hl H1 | | | | ]; subst.
    inversion H1 as [ | | ? ? at_ r2 Hat H2 | | | | ]; subst.
    inversion H2 as [ | | ? ? d r3 Hd H3 | | | | ]; subst.
    inversion H3 as [ | | ? ? dot t Hdot Ht | | | | ]; subst.
    apply matches_lit in Hat, Hdot. subst.
    apply matches_plus_class in Hl, Hd, Ht.
    exists l, d, t. auto.
  - intros [l [d [t [E [Hl [Hd Ht]]]]]]. subst s.
    constructor; [now apply matches_plus_class|].
    change ("@" ++ d ++ "." ++ t) with (String "@" "" ++ (d ++ String "." "" ++ t)).
    constructor; [now apply matches_lit|].
    constructor; [now apply matches_plus_class|].
    constructor; [now apply matches_lit|now apply matches_plus_class].
Qed.

Lemma matches_times_class : forall (p : ascii -> bool) (n : nat) (s : string),
  matches (Regex.Times n (Regex.Class p)) s
  <-> String.length s = n /\ all_chars p s = true.
Proof.
  intros p n. induction n as [|k IH]; intros s; simpl.
  - split.
    + intros Hm. inversion Hm; subst. auto.
    + intros [Hlen _]. destruct s; [constructor|discriminate].
  - split.
    + intros Hm. inversion Hm as [ | | ? ? u v Hu Hv | | | | ]; subst.
      apply matches_class_inv in Hu. destruct Hu as [c [-> Hc]].
      apply IH in Hv. destruct Hv as [Hlen Hall].
      simpl. rewrite Hlen, Hc, Hall. auto.
    + intros [Hlen Hall]. destruct s as [|c rest]; [discriminate|].
      simpl in Hlen, Hall. apply andb_true_iff in Hall. destruct Hall as [Hc Hrest].
      change (String c rest) with (String c "" ++ rest).
      constructor; [now constructor|]. apply IH. split; [congruence|exact Hrest].
Qed.

(** X2.  The phone pattern accepts exactly the texts of ten characters
    that are all decimal digits. *)
Theorem phoneRegex_shape : forall s : string,
  Regex.test phoneRegex s = true
  <-> String.length s = 10%nat /\ all_chars Regex.digit s = true.
Proof.
  intros s. rewrite test_matches. apply matches_times_class.
Qed.

(** ** The listing route *)

Lemma insert_newest_first_perm : forall (a : Appointment.t) (docs : list Appointment.t),
  Permutation (a :: docs) (insert_newest_first a docs).
Proof.
  intros a docs. induction docs as [|b rest IH]; simpl.
  - apply Permutation_refl.
  - destruct (Appointment.createdAt b <? Appointment.createdAt a)%Z.
    + apply Permutation_refl.
    + eapply perm_trans; [apply perm_swap|]. now apply perm_skip.
Qed.

Lemma sort_newest_first_perm : forall docs : list Appointment.t,
  Permutation docs (sort_newest_first docs).
Proof.
  intros docs. induction docs as [|a rest IH]; simpl.
  - apply perm_nil.
  - eapply perm_trans; [apply perm_skip, IH|]. apply insert_newest_first_perm.
Qed.

Lemma insert_newest_first_sorted : forall (a : Appointment.t) (docs : list Appointment.t),
  StronglySorted newer_or_same docs ->
  StronglySorted newer_or_same (insert_newest_first a docs).
Proof.
  intros a docs Hs. induction Hs as [|b rest Hrest IH Hb]; simpl.
  - constructor; constructor.
  - destruct (Z.ltb_spec (Appointment.createdAt b) (Appointment.createdAt a)) as [Hlt | Hge].
    + constructor; [constructor; assumption|].
      constructor; [unfold newer_or_same; lia|].
      rewrite Forall_forall in *. intros x Hx. specialize (Hb x Hx).
      unfold newer_or_same in *. lia.
    + constructor; [exact IH|].
      rewrite Forall_forall in *. intros x Hx.
      apply (Permutation_in x (Permutation_sym (insert_newest_first_perm a rest))) in Hx.
      destruct Hx as [-> | Hx]; [exact Hge|auto].
Qed.

Lemma sort_newest_first_sorted : forall docs : list Appointment.t,
  StronglySorted newer_or_same (sort_newest_first docs).
Proof.
  intros docs. induction docs as [|a rest IH]; simpl.
  - constructor.
  - now apply insert_newest_first_sorted.
Qed.

Lemma my_appointments_eval : forall (user : Identity) (db : Db),
  my_appointments user db
  = (Return (Documents 200
       (sort_newest_first (filter (owned_by (userId user)) (appointments db)))), db).
Proof. reflexivity. Qed.

(** X3.  The listing route answers 200 with the caller's appointments
    and no others -- a rearrangement of the stored records whose
    [userId] is the caller's -- ordered newest first; it writes
    nothing. *)
Theorem my_appointments_lists_own_newest_first :
  forall (user : Identity) (db : Db),
    exists docs,
      my_appointments user db = (Return (Documents 200 docs), db)
      /\ (forall d, In d docs <->
            In d (appointments db) /\ Appointment.userId d = Some (userId user))
      /\ Permutation docs (filter (owned_by (userId user)) (appointments db))
      /\ StronglySorted newer_or_same docs.
Proof.
  intros user db. eexists. split; [apply my_appointments_eval|].
  pose proof (sort_newest_first_perm
                (filter (owned_by (userId user)) (appointments db))) as Hp.
  split; [|split].
  - intros d. split.
    + intros Hin. apply (Permutation_in d (Permutation_sym Hp)) in Hin.
      apply filter_In in Hin. destruct Hin as [Hin Ho]. split; [exact Hin|].
      unfold owned_by in Ho. destruct (Appointment.userId d) as [u|]; [|discriminate].
      apply N.eqb_eq in Ho. now subst.
    + intros [Hin Ho]. apply (Permutation_in d Hp). apply filter_In.
      split; [exact Hin|]. unfold owned_by. rewrite Ho. apply N.eqb_refl.
  - now apply Permutation_sym.
  - apply sort_newest_first_sorted.
Qed.

(** ** Isolation between users *)

Lemma owned_by_filter : forall (id owner other : ObjectId) (d : Appointment.t),
  owner <> other ->
  Appointment.by_id_and_owner id owner d = true -> owned_by other d = false.
Proof.
  intros id owner other d Hneq Hf. unfold Appointment.by_id_and_owner in Hf.
  unfold owned_by. apply andb_true_iff in Hf. destruct Hf as [_ Ho].
  destruct (Appointment.userId d) as [u|]; [|reflexivity].
  apply N.eqb_eq in Ho. subst u. now apply N.eqb_neq.
Qed.

Lemma update_leaves_others : forall (id owner other : ObjectId) (s : string)
    (docs : list Appointment.t),
  owner <> other ->
  filter (owned_by other)
    (snd (Appointment.findOneAndUpdate (Appointment.by_id_and_owner id owner)
            (Appointment.set_status s) docs))
  = filter (owned_by other) docs.
Proof.
  intros id owner other s docs Hneq. induction docs as [|d rest IH]; [reflexivity|].
  cbn [Appointment.findOneAndUpdate].
  destruct (Appointment.by_id_and_owner id owner d) eqn:Hd.
  - cbn [snd filter].
    assert (Ho : owned_by other (Appointment.set_status s d) = owned_by other d)
      by reflexivity.
    now rewrite Ho, (owned_by_filter id owner other d Hneq Hd).
  - destruct (Appointment.findOneAndUpdate _ _ rest) as [found rest'].
    cbn [snd filter] in *. now rewrite IH.
Qed.

Lemma delete_leaves_others : forall (id owner other : ObjectId)
    (docs : list Appointment.t),
  owner <> other ->
  filter (owned_by other)
    (snd (Appointment.findOneAndDelete (Appointment.by_id_and_owner id owner) docs))
  = filter (owned_by other) docs.
Proof.
  intros id owner other docs Hneq. induction docs as [|d rest IH]; [reflexivity|].
  cbn [Appointment.findOneAndDelete].
  destruct (Appointment.by_id_and_owner id owner d) eqn:Hd.
  - cbn [snd filter]. now rewrite (owned_by_filter id owner other d Hneq Hd).
  - destruct (Appointment.findOneAndDelete _ rest) as [found rest'].
    cbn [snd filter] in *. now rewrite IH.
Qed.

(** X4.  Whatever one user does through the four appointment routes,
    the records of every other user stay exactly as they were, in the
    same order. *)
Theorem appointment_routes_leave_other_users_records :
  forall (H : Host) (user : Identity) (other : ObjectId) (body : Body.t)
         (id : ObjectId) (s : string) (now : Z) (db : Db),
    userId user <> other ->
    others_untouched other db (snd (create H user body now db))
    /\ others_untouched other db (snd (update_status user id s db))
    /\ others_untouched other db (snd (cancel user id db))
    /\ others_untouched other db (snd (my_appointments user db)).
Proof.
  intros H user other body id s now db Hneq. unfold others_untouched.
  split; [|split; [|split]].
  - rewrite create_cases. destruct (first_failure H now body); [reflexivity|].
    cbv zeta. cbn [snd appointments]. rewrite filter_app. cbn [filter].
    unfold owned_by at 2. cbn [booked Appointment.userId].
    replace (userId user =? other)%N with false
      by (symmetry; now apply N.eqb_neq).
    now rewrite app_nil_r.
  - rewrite update_status_db. cbn [appointments]. now apply update_leaves_others.
  - rewrite cancel_db. cbn [appointments]. now apply delete_leaves_others.
  - reflexivity.
Qed.

Lemma demo_db_ok : db_ok Demo.db2.
Proof.
  split; [exact demo_users_unique|]. split.
  - unfold unique_appointment_ids. cbn. repeat constructor. intros [].
  - cbn. repeat constructor.
Qed.

(** ** Booking, then the other routes *)

Lemma older_ids_miss : forall (db : Db) (owner : ObjectId),
  db_ok db ->
  forall d, In d (appointments db) ->
    Appointment.by_id_and_owner (next_id db) owner d = false.
Proof.
  intros db owner [_ [_ Hbound]] d Hd. unfold Appointment.by_id_and_owner.
  rewrite Forall_forall in Hbound.
  assert (Hlt : (Appointment._id d < next_id db)%N)
    by (apply Hbound; now apply in_map).
  replace (Appointment._id d =? next_id db)%N with false
    by (symmetry; apply N.eqb_neq; lia).
  reflexivity.
Qed.

(** X5.  In a reachable state, a booking that passes the gates gets an
    identifier no stored appointment has; the record then shows in the
    owner's listing, the owner's status update on that identifier
    rewrites it and nothing else, another user's update or cancel on it
    is answered 404, and the owner's cancel gives back the collection
    as it was before the booking. *)
Theorem booked_record_round_trip :
  forall (H : Host) (user : Identity) (body : Body.t) (now : Z) (db : Db),
    db_ok db ->
    first_failure H now body = None ->
    exists a db1,
      create H user body now db
      = (Return (Res.send 201
                   (Res.MessageAppointment "Appointment booked successfully Thank you!" a)),
         db1)
      /\ ~ In (Appointment._id a) (map Appointment._id (appointments db))
      /\ (exists docs, my_appointments user db1 = (Return (Documents 200 docs), db1)
                       /\ In a docs)
      /\ (forall s,
            update_status user (Appointment._id a) s db1
            = (Return (Res.send 200
                         (Res.MessageAppointment "Appointment updated successfully"
                            (Appointment.set_status s a))),
               {| users := users db;
                  appointments := (appointments db ++ [Appointment.set_status s a])%list;
                  next_id := N.succ (next_id db) |}))
      /\ (forall other s,
            userId other <> userId user ->
            update_status other (Appointment._id a) s db1 = (Return not_found, db1)
            /\ cancel other (Appointment._id a) db1 = (Return not_found, db1))
      /\ cancel user (Appointment._id a) db1
         = (Return (Res.send 200 (Res.Message "Appointment cancelled successfully")),
            {| users := users db; appointments := appointments db;
               next_id := N.succ (next_id db) |}).
Proof.
  intros H user body now db Hok Hpass.
  rewrite create_cases, Hpass. cbv zeta.
  set (a := booked (userId user) body (next_id db) now).
  eexists. eexists. split; [reflexivity|].
  assert (Hown : Appointment.by_id_and_owner (next_id db) (userId user) a = true).
  { unfold Appointment.by_id_and_owner, a. cbn. now rewrite !N.eqb_refl. }
  pose proof (older_ids_miss db (userId user) Hok) as Hmiss.
  split; [|split; [|split; [|split]]].
  - destruct Hok as [_ [_ Hbound]]. rewrite Forall_forall in Hbound.
    intros Hin. specialize (Hbound _ Hin). cbn in Hbound. lia.
  - eexists. split; [apply my_appointments_eval|].
    apply (Permutation_in a (sort_newest_first_perm _)).
    apply filter_In. cbn [appointments]. split.
    + apply in_or_app. right. now left.
    + unfold owned_by, a. cbn. apply N.eqb_refl.
  - intros s. change (Appointment._id a) with (next_id db).
    rewrite (update_status_hit user (next_id db) s _ (appointments db) a []);
      [reflexivity|reflexivity|exact Hmiss|exact Hown].
  - intros other s Hneq.
    assert (Hno : forall d, In d (appointments db ++ [a])%list ->
              Appointment.by_id_and_owner (Appointment._id a) (userId other) d = false).
    { intros d Hd. apply in_app_or in Hd. destruct Hd as [Hd | [<- | []]].
      - now apply older_ids_miss.
      - unfold Appointment.by_id_and_owner, a. cbn. rewrite N.eqb_refl. cbn.
        apply N.eqb_neq. auto. }
    split; [now apply update_status_miss|now apply cancel_miss].
  - change (Appointment._id a) with (next_id db).
    rewrite (cancel_hit user (next_id db) _ (appointments db) a []);
      [|reflexivity|exact Hmiss|exact Hown].
    cbn [users next_id]. now rewrite app_nil_r.
Qed.

Lemma booked_record_round_trip_witness :
  exists a db1,
    create Demo.host Demo.as_alice (Demo.booking "2025-03-12") Demo.noon Demo.db2
    = (Return (Res.send 201
                 (Res.MessageAppointment "Appointment booked successfully Thank you!" a)),
       db1)
    /\ update_status Demo.as_bob (Appointment._id a) "confirmed" db1
       = (Return not_found, db1)
    /\ snd (cancel Demo.as_alice (Appointment._id a) db1)
       = {| users := users Demo.db2; appointments := appointments Demo.db2;
            next_id := 4%N |}.
Proof.
  destruct (booked_record_round_trip Demo.host Demo.as_alice (Demo.booking "2025-03-12")
              Demo.noon Demo.db2 demo_db_ok eq_refl)
    as [a [db1 [E [_ [_ [_ [Hother Hcancel]]]]]]].
  exists a, db1. split; [exact E|]. split.
  - apply (Hother Demo.as_bob "confirmed"). discriminate.
  - rewrite Hcancel. reflexivity.
Defined.

(** ** Cancelling *)

(** X6.  Over unique identifiers, the owner's cancel removes that one
    record and no other, leaves the users alone, and from then on every
    cancel or status update on the identifier, by anyone, is answered
    404. *)
Theorem cancelled_record_is_gone :
  forall (db : Db) (a : Appointment.t) (owner : Identity),
    unique_appointment_ids db ->
    In a (appointments db) ->
    Appointment.userId a = Some (userId owner) ->
    exists db1,
      cancel owner (Appointment._id a) db = (Return (Res.send 200
        (Res.Message "Appointment cancelled successfully")), db1)
      /\ users db1 = users db
      /\ length (appointments db1) = pred (length (appointments db))
      /\ (forall d, In d (appointments db1) <-> In d (appointments db) /\ d <> a)
      /\ (forall (anyone : Identity) (s : string),
            cancel anyone (Appointment._id a) db1 = (Return not_found, db1)
            /\ update_status anyone (Appointment._id a) s db1 = (Return not_found, db1)).
Proof.
  intros db a owner Hnd Hin Howner.
  destruct (own_lookup_hits db a (userId owner) Hnd Hin Howner)
    as [before [after [E [Ha [Hno Hgone]]]]].
  eexists. split; [apply (cancel_hit owner _ db before a after); assumption|].
  cbn [users appointments]. split; [reflexivity|]. split; [|split].
  - rewrite E, !length_app. cbn. lia.
  - intros d. rewrite E. rewrite !in_app_iff. cbn [In]. split.
    + intros Hd. split; [tauto|]. intros ->. apply Hgone. now apply in_or_app.
    + intros [[Hd | [Hd | Hd]] Hneq]; auto. congruence.
  - intros anyone s.
    assert (Hid : ~ In (Appointment._id a) (map Appointment._id (before ++ after)%list)).
    { unfold unique_appointment_ids in Hnd. rewrite E, map_app in Hnd. cbn [map] in Hnd.
      rewrite map_app. exact (NoDup_remove_2 _ _ _ Hnd). }
    set (db1 := {| users := users db; appointments := (before ++ after)%list;
                   next_id := next_id db |}).
    pose proof (unknown_id_misses db1 (Appointment._id a) (userId anyone) Hid) as Hmiss.
    split; [now apply cancel_miss|now apply update_status_miss].
Qed.

Lemma cancelled_record_is_gone_witness :
  exists db1,
    cancel Demo.as_alice 2%N Demo.db2
    = (Return (Res.send 200 (Res.Message "Appointment cancelled successfully")), db1)
    /\ cancel Demo.as_alice 2%N db1 = (Return not_found, db1).
Proof.
  assert (Hnd : unique_appointment_ids Demo.db2) by apply demo_db_ok.
  destruct (cancelled_record_is_gone Demo.db2 Demo.alices_booking Demo.as_alice
              Hnd (or_introl eq_refl) eq_refl) as [db1 [E [_ [_ [_ Hagain]]]]].
  exists db1. split; [exact E|]. exact (proj1 (Hagain Demo.as_alice "x")).
Defined.

(** ** Status updates *)

Lemma update_after_update : forall (filter : Appointment.t -> bool) (s1 s2 : string)
    (docs : list Appointment.t),
  (forall s d, filter (Appointment.set_status s d) = filter d) ->
  Appointment.findOneAndUpdate filter (Appointment.set_status s2)
    (snd (Appointment.findOneAndUpdate filter (Appointment.set_status s1) docs))
  = Appointment.findOneAndUpdate filter (Appointment.set_status s2) docs.
Proof.
  intros filter s1 s2 docs Hf. induction docs as [|d rest IH]; [reflexivity|].
  cbn [Appointment.findOneAndUpdate]. destruct (filter d) eqn:Hd.
  - cbn [snd Appointment.findOneAndUpdate]. rewrite Hf, Hd. reflexivity.
  - destruct (Appointment.findOneAndUpdate filter (Appointment.set_status s1) rest)
      as [found rest'] eqn:E1.
    cbn [snd Appointment.findOneAndUpdate] in *. rewrite Hd, IH. reflexivity.
Qed.

(** X7.  Two status updates in a row by the same caller on the same
    identifier answer and store what the second alone would: the last
    write wins, and sending the same status twice changes nothing more.
    A status update never changes the identifiers or the owners of the
    stored appointments, nor the users. *)
Theorem update_status_last_write_wins :
  forall (user : Identity) (id : ObjectId) (s1 s2 : string) (db : Db),
    update_status user id s2 (snd (update_status user id s1 db))
    = update_status user id s2 db
    /\ map Appointment._id (appointments (snd (update_status user id s1 db)))
       = map Appointment._id (appointments db)
    /\ map Appointment.userId (appointments (snd (update_status user id s1 db)))
       = map Appointment.userId (appointments db)
    /\ users (snd (update_status user id s1 db)) = users db.
Proof.
  intros user id s1 s2 db. rewrite update_status_db. split; [|split; [|split]].
  - unfold update_status, try_catch_M, bind, on_appointments. cbn [appointments users next_id].
    rewrite update_after_update by reflexivity. reflexivity.
  - cbn [appointments]. apply update_keeps_ids.
  - cbn [appointments].
    induction (appointments db) as [|d rest IH]; [reflexivity|].
    cbn [Appointment.findOneAndUpdate].
    destruct (Appointment.by_id_and_owner id (userId user) d); [reflexivity|].
    destruct (Appointment.findOneAndUpdate _ _ rest) as [found rest'].
    cbn [snd map] in *. now rewrite IH.
  - reflexivity.
Qed.

(** ** Dates that are not dates *)

(** X8.  A request that passes the first three gates and whose [date]
    the Date parser cannot read passes the date gate as well: an
    Invalid Date compares false with today, so no gate fails, none of
    the four rejections is the answer, and the handler goes on to
    construct the record and save it. *)
Theorem unparseable_date_passes_the_date_gate :
  forall (H : Host) (user : Identity) (body : Body.t) (now : Z) (db : Db),
    missing_field body = false ->
    invalid_email body = false ->
    invalid_phone body = false ->
    Date_parse H (str (Body.date body)) = None ->
    date_lt (Date_parse H (str (Body.date body))) (setHours_0 (timezone_offset H) now)
    = false
    /\ first_failure H now body = None
    /\ forall e, fst (create H user body now db) <> Return (rejection e).
Proof.
  intros H user body now db Hm He Hp Hd.
  assert (Hnone : first_failure H now body = None).
  { rewrite first_failure_cases, Hm, He, Hp. unfold past_date. now rewrite Hd. }
  split; [now rewrite Hd|]. split; [exact Hnone|].
  intros e. rewrite create_cases, Hnone. cbn [fst].
  destruct e; discriminate.
Qed.

Lemma unparseable_date_passes_the_date_gate_witness :
  Demo.parse_date "next tuesday" = None
  /\ first_failure Demo.host Demo.noon (Demo.booking "next tuesday") = None
  /\ fst (create Demo.host Demo.as_alice (Demo.booking "next tuesday") Demo.noon Demo.db2)
     <> Return (rejection PastDate).
Proof.
  destruct (unparseable_date_passes_the_date_gate Demo.host Demo.as_alice
              (Demo.booking "next tuesday") Demo.noon Demo.db2
              eq_refl eq_refl eq_refl eq_refl) as [_ [Hnone Hno]].
  split; [reflexivity|]. split; [exact Hnone|]. apply Hno.
Defined.

(** ** Signup, then login *)

Lemma find_app_none : forall (A : Type) (f : A -> bool) (l : list A) (x : A),
  List.find f l = None -> List.find f (l ++ [x])%list = (if f x then Some x else None).
Proof.
  intros A f l x. induction l as [|a l IH]; simpl; intros Hn; [reflexivity|].
  destruct (f a); [discriminate|auto].
Qed.

Lemma find_none_of_all : forall (A : Type) (f : A -> bool) (l : list A),
  (forall x, In x l -> f x = false) -> List.find f l = None.
Proof.
  intros A f l. induction l as [|a l IH]; simpl; intros Hall; [reflexivity|].
  rewrite (Hall a (or_introl eq_refl)). apply IH. intros x Hx. apply Hall. now right.
Qed.

(** X9.  After a signup that succeeds, a login with the same username
    and password succeeds, at any later time, and answers with the same
    user; what is stored as the password is the bcrypt hash under the
    generated salt.  The one assumption on bcrypt is that [compare]
    accepts the password against its own hash. *)
Theorem signup_then_login :
  forall (H : Host) (env : process_env) (body : SignupBody.t) (salt : string)
         (now later : Z) (db : Db),
    complete body = true ->
    ~ taken db body ->
    bcrypt_compare H (str (SignupBody.password body))
      (bcrypt_hash H (str (SignupBody.password body)) salt) = true ->
    exists token token' user db1,
      signup H env body salt now db
      = (Return (Res.send 201
                   (Res.MessageTokenUser "User created successfully" token (view user))),
         db1)
      /\ login H env
           {| LoginBody.username := SignupBody.username body;
              LoginBody.password := SignupBody.password body |} later db1
         = (Return (Res.send 200
                      (Res.MessageTokenUser "Login successful" token' (view user))), db1)
      /\ In user (users db1)
      /\ User.password user = bcrypt_hash H (str (SignupBody.password body)) salt.
Proof.
  intros H env body salt now later db Hc Hfresh Hbcrypt.
  rewrite signup_complete by exact Hc.
  destruct (User.findOne (same_email_or_username body) (users db)) as [v|] eqn:Hf.
  { exfalso. apply Hfresh, (taken_iff db body Hc). eauto. }
  cbv zeta. eexists. eexists. eexists. eexists. split; [reflexivity|].
  pose proof Hc as Hc'. unfold complete in Hc'.
  repeat (apply andb_true_iff in Hc'; destruct Hc' as [Hc' ?]).
  rewrite login_present by assumption.
  cbn [LoginBody.username LoginBody.password users].
  assert (Hnone : User.findOne (User.by_username (str (SignupBody.username body)))
                    (users db) = None).
  { unfold User.findOne. apply find_none_of_all. intros u Hu.
    destruct (fresh_names db body Hf) as [Hnn _].
    unfold User.by_username. apply String.eqb_neq. intros E.
    apply Hnn. rewrite <- E. now apply in_map. }
  unfold User.findOne in *. rewrite (find_app_none _ _ _ _ Hnone).
  unfold User.by_username at 1. cbn [User.username]. rewrite String.eqb_refl.
  cbn [User.password]. rewrite Hbcrypt. cbv zeta.
  split; [reflexivity|]. split; [|reflexivity].
  apply in_or_app. right. now left.
Qed.

Lemma signup_then_login_witness :
  exists token token' user db1,
    signup Demo.host Demo.env_set
      (Demo.signup_as "carol" "carol@example.com" "secret" "Virgo") "salt"
      Demo.noon Demo.db2
    = (Return (Res.send 201
                 (Res.MessageTokenUser "User created successfully" token (view user))),
       db1)
    /\ login Demo.host Demo.env_set (Demo.login_as "carol" "secret")
         (Demo.noon + 5000) db1
       = (Return (Res.send 200
                    (Res.MessageTokenUser "Login successful" token' (view user))), db1).
Proof.
  destruct (signup_then_login Demo.host Demo.env_set
              (Demo.signup_as "carol" "carol@example.com" "secret" "Virgo") "salt"
              Demo.noon (Demo.noon + 5000) Demo.db2 eq_refl)
    as [token [token' [user [db1 [E1 [E2 _]]]]]].
  - intros [u [Hin Hsame]]. simpl in Hin, Hsame.
    destruct Hin as [E | [E | []]]; subst u; simpl in Hsame;
      destruct Hsame; discriminate.
  - reflexivity.
  - exists token, token', user, db1. split; assumption.
Defined.

(** X10.  A login request without a username or without a password is
    answered 400 "Username and password are required", whatever the
    stored users are; nothing is written and no token is given. *)
Theorem login_presence_gate :
  forall (H : Host) (env : process_env) (body : LoginBody.t) (now : Z) (db : Db),
    Js.falsy (LoginBody.username body) = true
    \/ Js.falsy (LoginBody.password body) = true ->
    login H env body now db
    = (Return (Res.send 400 (Res.Message "Username and password are required")), db)
    /\ Res.token_of (Res.send 400 (Res.Message "Username and password are required"))
       = None.
Proof.
  intros H env body now db Hm. split; [|reflexivity].
  apply login_absent. destruct Hm as [E | E]; rewrite E; [reflexivity|apply orb_true_r].
Qed.

Lemma login_presence_gate_witness :
  login Demo.host Demo.env_set
    {| LoginBody.username := Some "alice"; LoginBody.password := None |}
    Demo.noon Demo.db2
  = (Return (Res.send 400 (Res.Message "Username and password are required")), Demo.db2)
  /\ Res.token_of (Res.send 400 (Res.Message "Username and password are required"))
     = None.
Proof.
  apply (login_presence_gate Demo.host Demo.env_set _ Demo.noon Demo.db2).
  right. reflexivity.
Defined.

(** ** What the gate lets through *)

(** X11.  The middleware calls [next()] only for a bearer header whose
    credential has three parts, with a header that names one of the
    three HMAC algorithms and a signature that is the MAC, by that
    algorithm, of header and payload under [process.env.JWT_SECRET] --
    which then is set.  Of the payload, as far as it reads: a time
    before which it is not to be used has come, an expiry is still
    ahead, and the identity handed on is its [userId] and [username].
    A payload with neither time is let through at any clock. *)
Theorem auth_next_means_verified :
  forall (H : Host) (env : process_env) (authorization : Js.value) (now : Z)
         (user : Identity),
    auth H env authorization now = Next user ->
    bearer authorization = true
    /\ Js.truthy (env_JWT_SECRET env) = true
    /\ exists header payload signature alg,
         Js.split "." (str (credential authorization)) = [header; payload; signature]
         /\ jwt.header_alg H header = Some (Some alg)
         /\ signature = jwt.hmac H alg (str (env_JWT_SECRET env)) (header ++ "." ++ payload)
         /\ forall decoded,
              b64url_json_inv H payload = Some decoded ->
              (forall nbf, Decoded.nbf decoded = Some nbf -> (nbf <= now / 1000)%Z)
              /\ (forall exp, Decoded.exp decoded = Some exp -> (now / 1000 < exp)%Z)
              /\ user = {| userId := Decoded.userId decoded;
                           username := Decoded.username decoded |}.
Proof.
  intros H env authorization now user. unfold auth.
  destruct (bearer authorization) eqn:Hb.
  2:{ rewrite auth_with_no_bearer by exact Hb. discriminate. }
  rewrite auth_with_bearer by exact Hb.
  destruct (jwt.verify H (credential authorization) (env_JWT_SECRET env) now)
    as [d|e] eqn:Hv; [|discriminate].
  intros E. inversion E; subst user. apply verify_returns_inv in Hv.
  destruct Hv as [h [p [s [a [Hsplit [Halg [Hinv [Hkey [Hsig [Hnbf Hexp]]]]]]]]]].
  split; [reflexivity|]. split; [exact Hkey|].
  exists h, p, s, a.
  split; [exact Hsplit|]. split; [exact Halg|]. split; [exact Hsig|].
  intros decoded Hd. rewrite Hinv in Hd. inversion Hd; subst decoded.
  split; [|split; [|reflexivity]].
  - intros nbf En. unfold jwt.not_yet_valid in Hnbf. rewrite En in Hnbf.
    now apply Z.ltb_ge.
  - intros exp Ee. unfold jwt.expired in Hexp. rewrite Ee in Hexp.
    now apply Z.leb_gt.
Qed.

Lemma auth_next_means_verified_witness :
  bearer (Some "Bearer eyJhbGciOiJIUzI1NiIsInR5cCI6IkpXVCJ9.0_1741608000_1741694400_alice.3254167214")
  = true
  /\ Js.truthy (env_JWT_SECRET Demo.env_set) = true
  /\ exists header payload signature alg,
       Js.split "."
         "eyJhbGciOiJIUzI1NiIsInR5cCI6IkpXVCJ9.0_1741608000_1741694400_alice.3254167214"
       = [header; payload; signature]
       /\ jwt.header_alg Demo.host header = Some (Some alg)
       /\ signature = jwt.hmac Demo.host alg "s3cret" (header ++ "." ++ payload).
Proof.
  destruct (auth_next_means_verified Demo.host Demo.env_set
    (Some "Bearer eyJhbGciOiJIUzI1NiIsInR5cCI6IkpXVCJ9.0_1741608000_1741694400_alice.3254167214")
    Demo.noon {| userId := 0%N; username := "alice" |} eq_refl)
    as [Hb [Hk [h [p [s [a [Hsplit [Halg [Hsig _]]]]]]]]].
  split; [exact Hb|]. split; [exact Hk|].
  exists h, p, s, a. repeat split; assumption.
Defined.

(** Tokens this server never issues, made by a holder of the secret:
    one signed by HS384, and one without an expiry, presented a year
    on.  Both pass.  A signature by another algorithm than the header
    names does not, nor does a header that names RS256. *)
Example foreign_tokens_under_the_secret :
  auth Demo.host Demo.env_set
    (Some "Bearer eyJhbGciOiJIUzM4NCIsInR5cCI6IkpXVCJ9.0_1741608000_1741694400_alice.4097008641")
    Demo.noon
  = Next Demo.as_alice
  /\ auth Demo.host Demo.env_set
       (Some "Bearer eyJhbGciOiJIUzI1NiIsInR5cCI6IkpXVCJ9.0_1741608000_never_alice.2678992806")
       (Demo.noon + 365 * 86400000)
     = Next Demo.as_alice
  /\ auth Demo.host Demo.env_set
       (Some "Bearer eyJhbGciOiJIUzM4NCIsInR5cCI6IkpXVCJ9.0_1741608000_1741694400_alice.3254167214")
       Demo.noon
     = Sent invalid_token
  /\ auth Demo.host Demo.env_set
       (Some "Bearer eyJhbGciOiJSUzI1NiIsInR5cCI6IkpXVCJ9.0_1741608000_1741694400_alice.3254167214")
       Demo.noon
     = Sent invalid_token.
Proof. repeat split; vm_compute; reflexivity. Qed.

(** X12.  On a server started without [JWT_SECRET] no request passes
    the middleware, whatever its header: every protected route answers
    401 and leaves the collections as they were. *)
Theorem no_request_passes_without_env_secret :
  forall (H : Host) (env : process_env) (authorization : Js.value) (now : Z),
    Js.falsy (env_JWT_SECRET env) = true ->
    (auth H env authorization now = Sent unauthenticated
     \/ auth H env authorization now = Sent invalid_token)
    /\ forall (handler : Identity -> M Res.t) (db : Db),
         exists response,
           protected H env handler authorization now db = (Return response, db)
           /\ Res.status response = 401%Z.
Proof.
  intros H env authorization now Hunset.
  assert (Hsent : auth H env authorization now = Sent unauthenticated
                  \/ auth H env authorization now = Sent invalid_token).
  { unfold auth. destruct (bearer authorization) eqn:Hb.
    - right. rewrite auth_with_bearer by exact Hb.
      destruct (verify_without_key H (credential authorization)
                  (env_JWT_SECRET env) now Hunset) as [e E].
      now rewrite E.
    - left. now apply auth_with_no_bearer. }
  split; [exact Hsent|]. intros handler db. unfold protected.
  destruct Hsent as [E | E]; rewrite E; eexists; split; reflexivity.
Qed.

Lemma no_request_passes_without_env_secret_witness :
  exists response,
    protected Demo.host Demo.env_unset
      (fun user => create Demo.host user (Demo.booking "2025-03-12") Demo.noon)
      (Some "Bearer anything.at.all") Demo.noon Demo.db2
    = (Return response, Demo.db2)
    /\ Res.status response = 401%Z.
Proof.
  destruct (no_request_passes_without_env_secret Demo.host Demo.env_unset
              (Some "Bearer anything.at.all") Demo.noon eq_refl) as [_ Hall].
  apply Hall.
Defined.

(** ** The life of a token *)

Lemma verify_issued : forall (H : Host) (key : string) (p : Payload.t) (now : Z),
  (key =? "") = false ->
  codes_token H key p ->
  jwt.verify H
    (Some (jwt.signing_input H p ++ "." ++ hs256 H key (jwt.signing_input H p)))
    (Some key) now
  = if (Payload.exp p <=? now / 1000)%Z then Throw (TokenExpiredError "jwt expired")
    else Return (Decoded.of_payload p).
Proof.
  intros H key p now Hkey [Hinv [HP [HS Htrim]]].
  unfold segment_text in HP, HS.
  apply andb_true_iff in HP. destruct HP as [HPd _].
  apply andb_true_iff in HS. destruct HS as [HSd _].
  apply negb_true_iff in HPd, HSd.
  set (S := hs256 H key (jwt.signing_input H p)) in *.
  assert (Htok : jwt.signing_input H p ++ "." ++ S
                 = jwt.header_HS256 ++ String "." (b64url_json H p ++ String "." S)).
  { unfold jwt.signing_input. rewrite append_assoc. reflexivity. }
  rewrite Htok. unfold jwt.verify.
  replace (Js.falsy (Some (jwt.header_HS256
             ++ String "." (b64url_json H p ++ String "." S)))) with false
    by reflexivity.
  cbn [str].
  rewrite split_at_separator by reflexivity.
  rewrite split_at_separator by exact HPd.
  rewrite split_without_separator by exact HSd.
  rewrite header_HS256_alg, Hinv, Htrim. cbv zeta.
  unfold Js.truthy, Js.falsy. rewrite Hkey.
  cbn [negb andb jwt.hmac].
  change (jwt.header_HS256 ++ "." ++ b64url_json H p) with (jwt.signing_input H p).
  fold S. rewrite String.eqb_refl. cbn [negb]. reflexivity.
Qed.

Lemma token_has_no_space : forall (H : Host) (key : string) (p : Payload.t),
  codes_token H key p ->
  has_char " " (jwt.signing_input H p ++ "." ++ hs256 H key (jwt.signing_input H p))
  = false.
Proof.
  intros H key p [_ [HP [HS _]]]. unfold segment_text in HP, HS.
  apply andb_true_iff in HP. destruct HP as [_ HPs].
  apply andb_true_iff in HS. destruct HS as [_ HSs].
  apply negb_true_iff in HPs, HSs.
  set (S := hs256 H key (jwt.signing_input H p)) in *.
  rewrite has_char_append. cbn [append has_char]. rewrite HSs.
  unfold jwt.signing_input. rewrite has_char_append. cbn [append has_char].
  rewrite HPs. reflexivity.
Qed.

Lemma env_secret_set : forall env : process_env,
  Js.truthy (env_JWT_SECRET env) = true ->
  env_JWT_SECRET env = Some (JWT_SECRET env).
Proof.
  intros [[k|]]; unfold JWT_SECRET, Js.or_else, Js.truthy, Js.falsy; cbn;
    [|discriminate].
  destruct (k =? ""); [discriminate|reflexivity].
Qed.

Lemma auth_issued : forall (H : Host) (env : process_env) (p : Payload.t) (now : Z),
  Js.truthy (env_JWT_SECRET env) = true ->
  codes_token H (JWT_SECRET env) p ->
  auth H env
    (Some ("Bearer " ++ jwt.signing_input H p ++ "."
             ++ hs256 H (JWT_SECRET env) (jwt.signing_input H p))) now
  = if (Payload.exp p <=? now / 1000)%Z then Sent invalid_token
    else Next {| userId := Payload.userId p; username := Payload.username p |}.
Proof.
  intros H env p now Hset Hcodes. unfold auth.
  rewrite auth_with_bearer by apply bearer_header.
  destruct (credential_of_header
              (jwt.signing_input H p ++ "."
                 ++ hs256 H (JWT_SECRET env) (jwt.signing_input H p)))
    as [first [Hc Hfirst]].
  rewrite Hc, (Hfirst (token_has_no_space H _ p Hcodes)).
  rewrite (env_secret_set env Hset).
  rewrite verify_issued by (auto using JWT_SECRET_nonempty).
  destruct (Payload.exp p <=? now / 1000)%Z; reflexivity.
Qed.

(** X13.  Where [JWT_SECRET] is set, a token issued at one clock is
    accepted at another exactly while fewer than 24 hours' worth of
    whole seconds have passed, and refused as invalid from then on. *)
Theorem issued_token_validity_window :
  forall (H : Host) (env : process_env) (uid : ObjectId) (uname : string)
         (issued checked : Z),
    Js.truthy (env_JWT_SECRET env) = true ->
    codes_token H (JWT_SECRET env) (issued_payload uid uname issued) ->
    exists token,
      jwt.sign H uid uname (JWT_SECRET env) jwt.expiresIn_24h issued = Return token
      /\ ((checked / 1000 < issued / 1000 + 86400)%Z ->
          auth H env (Some ("Bearer " ++ token)) checked
          = Next {| userId := uid; username := uname |})
      /\ ((issued / 1000 + 86400 <= checked / 1000)%Z ->
          auth H env (Some ("Bearer " ++ token)) checked = Sent invalid_token).
Proof.
  intros H env uid uname issued checked Hset Hcodes.
  rewrite sign_returns. cbv zeta. fold (issued_payload uid uname issued).
  eexists. split; [reflexivity|].
  rewrite auth_issued by assumption. cbn [issued_payload Payload.exp Payload.userId
                                          Payload.username].
  split; intros Ht.
  - apply Z.leb_gt in Ht. now rewrite Ht.
  - apply Z.leb_le in Ht. now rewrite Ht.
Qed.

Lemma demo_codes_token :
  codes_token Demo.host (JWT_SECRET Demo.env_set) (issued_payload 0%N "alice" Demo.noon).
Proof. repeat split. Qed.

Lemma issued_token_validity_window_witness :
  exists token,
    jwt.sign Demo.host 0%N "alice" (JWT_SECRET Demo.env_set) jwt.expiresIn_24h Demo.noon
    = Return token
    /\ auth Demo.host Demo.env_set (Some ("Bearer " ++ token)) (Demo.noon + 86399999)
       = Next {| userId := 0%N; username := "alice" |}
    /\ auth Demo.host Demo.env_set (Some ("Bearer " ++ token)) (Demo.noon + 86400000)
       = Sent invalid_token.
Proof.
  destruct (issued_token_validity_window Demo.host Demo.env_set 0%N "alice" Demo.noon
              (Demo.noon + 86399999) eq_refl demo_codes_token) as [token [E [Hin _]]].
  destruct (issued_token_validity_window Demo.host Demo.env_set 0%N "alice" Demo.noon
              (Demo.noon + 86400000) eq_refl demo_codes_token) as [token' [E' [_ Hout]]].
  exists token. split; [exact E|]. split.
  - apply Hin. vm_compute. reflexivity.
  - rewrite E in E'. inversion E'; subst token'. apply Hout. vm_compute. discriminate.
Defined.

(** X14.  Where [JWT_SECRET] is set, the token a successful login
    answers with, presented before its expiry, makes every protected
    route run its handler with exactly that user's id and username. *)
Theorem login_token_carries_identity :
  forall (H : Host) (env : process_env) (body : LoginBody.t) (now later : Z)
         (db : Db) (u : User.t),
    Js.truthy (env_JWT_SECRET env) = true ->
    Js.truthy (LoginBody.username body) = true ->
    Js.truthy (LoginBody.password body) = true ->
    NoDup (map User.username (users db)) ->
    In u (users db) ->
    User.username u = str (LoginBody.username body) ->
    bcrypt_compare H (str (LoginBody.password body)) (User.password u) = true ->
    codes_token H (JWT_SECRET env) (issued_payload (User._id u) (User.username u) now) ->
    (later / 1000 < now / 1000 + 86400)%Z ->
    exists token,
      Res.token_of (match fst (login H env body now db) with
                    | Return r => r
                    | Throw _ => internal_error
                    end) = Some token
      /\ forall (handler : Identity -> M Res.t) (db' : Db),
           protected H env handler (Some ("Bearer " ++ token)) later db'
           = handler {| userId := User._id u; username := User.username u |} db'.
Proof.
  intros H env body now later db u Hset Hu Hp Hnd Hin Hname Hok Hcodes Hfresh.
  rewrite (login_present H env body now db Hu Hp).
  assert (Hfind : User.findOne (User.by_username (str (LoginBody.username body)))
                    (users db) = Some u).
  { unfold User.findOne. apply (find_unique User.t string User.username); auto.
    - unfold User.by_username. now apply String.eqb_eq.
    - intros y _ Hy. unfold User.by_username in Hy. apply String.eqb_eq in Hy.
      congruence. }
  rewrite Hfind, Hok. cbv zeta. fold (issued_payload (User._id u) (User.username u) now).
  eexists. split; [reflexivity|].
  intros handler db'. unfold protected.
  rewrite auth_issued by assumption.
  cbn [issued_payload Payload.exp Payload.userId Payload.username].
  apply Z.leb_gt in Hfresh. now rewrite Hfresh.
Qed.

Lemma login_token_carries_identity_witness :
  exists token,
    Res.token_of (match fst (login Demo.host Demo.env_set
                               (Demo.login_as "alice" "wonderland") Demo.noon Demo.db2) with
                  | Return r => r
                  | Throw _ => internal_error
                  end) = Some token
    /\ protected Demo.host Demo.env_set
         (fun user => create Demo.host user (Demo.booking "2025-03-12") (Demo.noon + 60000))
         (Some ("Bearer " ++ token)) (Demo.noon + 60000) Demo.db2
       = create Demo.host Demo.as_alice (Demo.booking "2025-03-12") (Demo.noon + 60000)
           Demo.db2.
Proof.
  destruct (login_token_carries_identity Demo.host Demo.env_set
              (Demo.login_as "alice" "wonderland") Demo.noon (Demo.noon + 60000)
              Demo.db2 Demo.alice eq_refl eq_refl eq_refl (proj1 demo_users_unique)
              (or_introl eq_refl) eq_refl eq_refl demo_codes_token)
    as [token [E Hall]].
  - vm_compute. reflexivity.
  - exists token. split; [exact E|]. apply Hall.
Defined.

(** ** CORS *)

Lemma indexOf_from_spec : forall (xs : list string) (x : string) (i : Z),
  (0 <= i)%Z ->
  (indexOf_from i xs x = -1)%Z <-> ~ In x xs.
Proof.
  intros xs x. induction xs as [|y rest IH]; intros i Hi; cbn [indexOf_from In].
  - tauto.
  - destruct (String.eqb_spec y x) as [E | Hne].
    + split; [lia|tauto].
    + rewrite IH by lia. tauto.
Qed.

(** X17.  The CORS origin function allows a request exactly when it has
    no origin, or its origin is, character for character, one of the
    four listed. *)
Theorem cors_origin_allows :
  forall origin : Js.value,
    cors_origin origin = true
    <-> Js.falsy origin = true \/ In (str origin) allowedOrigins.
Proof.
  intros origin. unfold cors_origin.
  destruct (Js.falsy origin); [tauto|].
  destruct (Z.eqb_spec (indexOf allowedOrigins (str origin)) (-1)) as [E | Hne].
  - apply indexOf_from_spec in E; [|lia]. split; [discriminate|].
    intros [Hf | Hin]; [discriminate|tauto].
  - split; [|reflexivity]. intros _. right.
    destruct (in_dec string_dec (str origin) allowedOrigins) as [Hin | Hout]; [exact Hin|].
    exfalso. apply Hne. apply indexOf_from_spec; [lia|exact Hout].
Qed.

(** X18.  Of the routes the two files register, the status update --
    [PATCH /api/appointments/:id] -- is the only one whose verb is not
    in the [methods] the CORS options allow. *)
Theorem cors_methods_miss_patch :
  forall verb path : string,
    In (verb, path) routes ->
    (In verb cors_methods <-> (verb, path) <> ("PATCH", "/api/appointments/:id")).
Proof.
  intros verb path Hin. cbn in Hin.
  repeat (destruct Hin as [E | Hin]; [inversion E; subst; clear E|]);
    try (destruct Hin);
    (split; [intros Hm; try discriminate;
             cbn in Hm; repeat (destruct Hm as [Hm | Hm]; try discriminate); tauto
            |intros Hne; cbn; try tauto; try (exfalso; apply Hne; reflexivity)]).
Qed.

(** ** connectDB *)

Lemma connectDB_from_0 : forall connect : nat -> bool,
  connectDB connect 0
  = if connect 0%nat then Connected 0
    else if connect 1%nat then Connected 1
    else if connect 2%nat then Connected 2
    else if connect 3%nat then Connected 3
    else Exited 1 3.
Proof.
  intros connect. rewrite connectDB_equation.
  destruct (connect 0%nat); [reflexivity|]. cbn [Nat.ltb Nat.leb].
  rewrite connectDB_equation.
  destruct (connect 1%nat); [reflexivity|]. cbn [Nat.ltb Nat.leb].
  rewrite connectDB_equation.
  destruct (connect 2%nat); [reflexivity|]. cbn [Nat.ltb Nat.leb].
  rewrite connectDB_equation.
  destruct (connect 3%nat); reflexivity.
Qed.

Example connectDB_third_attempt :
  connectDB (fun k => Nat.eqb k 2) 0 = Connected 2
  /\ connectDB (fun _ => false) 0 = Exited 1 3.
Proof. split; vm_compute; reflexivity. Qed.

(** X19.  [connectDB()] makes at most four connection attempts (the
    first and three retries, five seconds apart): it goes on after the
    first attempt that succeeds, and it leaves with exit code 1 exactly
    when all four fail, after the fourth. *)
Theorem connectDB_attempts :
  forall connect : nat -> bool,
    (forall k, connectDB connect 0 = Connected k <->
       (k <= 3)%nat /\ connect k = true /\ forall j, (j < k)%nat -> connect j = false)
    /\ (forall code k, connectDB connect 0 = Exited code k <->
          code = 1%Z /\ k = 3%nat /\ forall j, (j <= 3)%nat -> connect j = false)
    /\ (0 <= waited (connectDB connect 0) <= 15000)%Z.
Proof.
  intros connect. rewrite connectDB_from_0.
  destruct (connect 0%nat) eqn:E0; [|destruct (connect 1%nat) eqn:E1;
    [|destruct (connect 2%nat) eqn:E2; [|destruct (connect 3%nat) eqn:E3]]].
  all: split; [|split; [|cbn; lia]].
  all: try (intros k; split;
            [ intros E;
              first [ discriminate E
                    | inversion E; subst; clear E;
                      split; [lia|]; split; [assumption|];
                      intros j Hj; repeat (destruct j as [|j]; [assumption|]); lia ]
            | intros [Hk [Hc Hall]];
              destruct k as [|[|[|[|k]]]]; try lia; try reflexivity;
              exfalso; attempt_clash connect Hall ]).
  all: try (intros code k; split;
            [ intros E;
              first [ discriminate E
                    | inversion E; subst; clear E;
                      split; [reflexivity|]; split; [reflexivity|];
                      intros j Hj; repeat (destruct j as [|j]; [assumption|]); lia ]
            | intros [-> [-> Hall]]; try reflexivity;
              exfalso; attempt_clash connect Hall ]).
Qed.

Lemma appointment_routes_leave_other_users_records_witness :
  others_untouched 0%N Demo.db2
    (snd (create Demo.host Demo.as_bob (Demo.booking "2025-03-12") Demo.noon Demo.db2))
  /\ others_untouched 0%N Demo.db2 (snd (update_status Demo.as_bob 2%N "done" Demo.db2))
  /\ others_untouched 0%N Demo.db2 (snd (cancel Demo.as_bob 2%N Demo.db2))
  /\ others_untouched 0%N Demo.db2 (snd (my_appointments Demo.as_bob Demo.db2)).
Proof.
  apply (appointment_routes_leave_other_users_records Demo.host Demo.as_bob 0%N).
  discriminate.
Defined.

Lemma cors_methods_miss_patch_witness :
  (In "PATCH" cors_methods <->
   ("PATCH", "/api/appointments/:id") <> ("PATCH", "/api/appointments/:id"))
  /\ (In "DELETE" cors_methods <->
      ("DELETE", "/api/appointments/:id") <> ("PATCH", "/api/appointments/:id")).
Proof.
  split.
  - apply (cors_methods_miss_patch "PATCH" "/api/appointments/:id").
    cbn. tauto.
  - apply (cors_methods_miss_patch "DELETE" "/api/appointments/:id").
    cbn. tauto.
Defined.

(** ** Which route writes where *)

(** X15.  Signup never touches the appointments, the three writing
    appointment routes never touch the users, and login and the listing
    route write nothing at all. *)
Theorem routes_write_only_their_collection :
  forall (H : Host) (env : process_env) (user : Identity) (now : Z) (db : Db),
    (forall body salt,
       appointments (snd (signup H env body salt now db)) = appointments db)
    /\ (forall body, snd (login H env body now db) = db)
    /\ snd (my_appointments user db) = db
    /\ (forall body, users (snd (create H user body now db)) = users db)
    /\ (forall id s, users (snd (update_status user id s db)) = users db)
    /\ (forall id, users (snd (cancel user id db)) = users db).
Proof.
  intros H env user now db. repeat split.
  - intros body salt. apply signup_frame.
  - intros body. apply login_reads_only.
  - intros body. rewrite create_cases. destruct (first_failure H now body); reflexivity.
  - intros id s. now rewrite update_status_db.
  - intros id. now rewrite cancel_db.
Qed.

(** [reachable_db_ok] on the state after a first signup. *)
Lemma reachable_db_ok_witness :
  db_ok (snd (serve Demo.host Demo.env_set
                (Signup (Demo.signup_as "alice" "alice@example.com" "wonderland" "Leo")
                   "salt")
                Demo.noon empty_db)).
Proof.
  apply (reachable_db_ok Demo.host Demo.env_set).
  apply reachable_serve. apply reachable_empty.
Defined.
